(** * Field manager: ownership ledger orchestration

    A shallow embedding of
    [staging/src/k8s.io/apiserver/pkg/endpoints/handlers/fieldmanager/fieldmanager.go]:
    the two entry points [Update] and [Apply] of the [fieldManager], the
    identity builder [buildManagerInfo] and the field stripper
    [stripFields] with its constant [stripSet].

    Go maps are finite maps ([gmap]); a [fieldpath.Set] is the finite set of
    the paths it holds ([gset]); a Go [(value, error)] result is a [result];
    a function that may panic returns an [outcome].  The collaborators the
    file calls but does not define (codec, converters, merge engine, YAML
    parser) are the fields of the class [Collaborators] and of the records
    [TypeConverter], [ObjectConvertor], [ObjectDefaulter] and [Updater].

    Objects are values: a collaborator that updates an object in place
    returns the updated object, and a conversion returns an object of its
    own.  The instant read by [time.Now().UTC()] is the argument [now] of
    [Update] and [Apply], which read it at most once. *)

From stdpp Require Import gmap strings list fin_maps.

Open Scope string_scope.

(** ** fieldpath: paths, sets and versioned sets *)

Module fieldpath.

(** [fieldpath.PathElement]: exactly one of a field name, a key (a list of
    named key fields), a value or an index. *)
Inductive PathElement :=
| FieldName (name : string)
| Key (fields : list (string * string))
| Value (v : string)
| Index (i : Z).

#[export] Instance PathElement_eq_dec : EqDecision PathElement.
Proof. solve_decision. Defined.

Definition PathElement_encode (pe : PathElement)
  : string + list (string * string) + string + Z :=
  match pe with
  | FieldName n => inl (inl (inl n))
  | Key k => inl (inl (inr k))
  | Value v => inl (inr v)
  | Index i => inr i
  end.

Definition PathElement_decode
  (x : string + list (string * string) + string + Z) : PathElement :=
  match x with
  | inl (inl (inl n)) => FieldName n
  | inl (inl (inr k)) => Key k
  | inl (inr v) => Value v
  | inr i => Index i
  end.

#[export] Instance PathElement_countable : Countable PathElement.
Proof.
  apply (inj_countable' PathElement_encode PathElement_decode).
  by intros [].
Defined.

(** [fieldpath.Path] is a slice of path elements. *)
Abbreviation Path := (list PathElement).

(** [fieldpath.Set], read as the set of paths it contains. *)
Abbreviation Set_ := (gset (list PathElement)).

(** [MakePathOrDie] applied to string parts: each string is a field
    name.  (The other kinds of parts never occur in this file.) *)
Definition MakePathOrDie (parts : list string) : Path := FieldName <$> parts.

(** [fieldpath.NewSet(paths...)] *)
Definition NewSet (paths : list Path) : Set_ := list_to_set paths.

(** The method [Empty] of a set. *)
Definition Empty (s : Set_) : bool := bool_decide (s = ∅).

(** [fieldpath.APIVersion] is a string type. *)
Abbreviation APIVersion := string.

(** The value behind the interface [fieldpath.VersionedSet]; [Set'] and
    [APIVersion'] are its methods [Set] and [APIVersion]. *)
Record VersionedSet := NewVersionedSet {
  Set' : Set_;
  APIVersion' : APIVersion;
  Applied : bool
}.

(** [fieldpath.ManagedFields] is [map[string]VersionedSet]; the values are
    of an interface type, so a present key may hold [nil] ([None]). *)
Abbreviation ManagedFields := (gmap string (option VersionedSet)).

End fieldpath.
Import fieldpath.

(** ** Results and panics *)

(** [merge.Conflicts]: the conflicting (manager, path) pairs. *)
Abbreviation Conflicts := (list (string * Path)).

(** The error values that flow through this file, by the function that
    makes them. *)
Inductive error :=
| fmt_Errorf (msg : string)                 (* fmt.Errorf(...) *)
| errors_NewBadRequest (msg : string)       (* errors.NewBadRequest(...) *)
| internal_NewConflictError (c : Conflicts) (* internal.NewConflictError(...) *)
| merge_Conflicts (c : Conflicts)           (* a merge.Conflicts value *)
| other_error (msg : string).               (* any other collaborator error *)

(** A Go [(value, error)] pair of a collaborator: the value when the error
    is nil, the error otherwise. *)
Inductive result (A : Type) :=
| Ok (a : A)
| Err (e : error).
Arguments Ok {A} a.
Arguments Err {A} e.

(** What the merge engine can fail with: the type assertion
    [err.(merge.Conflicts)] succeeds on the first and fails on the second,
    an error that the engine builds itself and that is no status error. *)
Inductive merge_error :=
| MergeConflicts (c : Conflicts)
| MergeFailure (msg : string).

Definition merge_error_to_error (e : merge_error) : error :=
  match e with
  | MergeConflicts c => merge_Conflicts c
  | MergeFailure msg => other_error msg
  end.

(** A call either returns or panics. *)
Inductive outcome (A : Type) :=
| Returns (a : A)
| Panics (msg : string).
Arguments Returns {A} a.
Arguments Panics {A} msg.

(** ** The constant [stripSet] and [stripFields] *)

(** stripSet is the list of fields that should never be part of a
    managedFields. *)
Definition stripSet : Set_ :=
  NewSet [
    MakePathOrDie ["apiVersion"];
    MakePathOrDie ["kind"];
    MakePathOrDie ["metadata"];
    MakePathOrDie ["metadata"; "name"];
    MakePathOrDie ["metadata"; "namespace"];
    MakePathOrDie ["metadata"; "creationTimestamp"];
    MakePathOrDie ["metadata"; "selfLink"];
    MakePathOrDie ["metadata"; "uid"];
    MakePathOrDie ["metadata"; "clusterName"];
    MakePathOrDie ["metadata"; "generation"];
    MakePathOrDie ["metadata"; "managedFields"];
    MakePathOrDie ["metadata"; "resourceVersion"]
  ].

(** [stripFields(managed, manager)]: the map is updated in place and
    returned; here the updated map is the result. *)
Definition stripFields (managed : ManagedFields) (manager : string)
  : outcome ManagedFields :=
  match managed !! manager with
  | Some vs =>
      match vs with
      | None =>
          Panics ("Found unexpected nil manager which should never happen: "
                  +:+ manager)
      | Some vs =>
          let newSet := Set' vs ∖ stripSet in
          if Empty newSet
          then Returns (delete manager managed)
          else Returns (<[manager :=
                  Some (NewVersionedSet newSet (APIVersion' vs) (Applied vs))]>
                  managed)
      end
  | None => Returns managed
  end.

(** ** metav1 and internal data *)

(** [metav1.ManagedFieldsOperationType] with its two constants. *)
Inductive ManagedFieldsOperationType :=
| ManagedFieldsOperationApply
| ManagedFieldsOperationUpdate.

(** [metav1.ManagedFieldsEntry], with the fields this file sets; the others
    keep their zero value. *)
Record ManagedFieldsEntry := {
  Manager : string;
  Operation : ManagedFieldsOperationType;
  APIVersion : string
}.

(** [metav1.Time]: an instant, in UTC. *)
Definition Time := Z.

(** [internal.Managed]: the ledger, and the last-write time of each
    identity. *)
Record Managed := {
  Fields : ManagedFields;
  Times : gmap string Time
}.

(** The result of the merge engine: on success a typed object and the new
    ledger. *)
Inductive merge_result (A : Type) :=
| Merged (a : A)
| MergeFailed (e : merge_error).
Arguments Merged {A} a.
Arguments MergeFailed {A} e.

(** ** Collaborators *)

(** The package-level functions and the types of other packages that the
    file uses.  A function that updates its argument in place returns the
    updated object. *)
Class Collaborators := {
  Object : Type;                 (* runtime.Object *)
  Typed : Type;                  (* a typed value of the merge engine *)
  Unstructured : Type;           (* unstructured.Unstructured *)
  GroupVersion : Type;           (* schema.GroupVersion *)
  GroupVersion_String : GroupVersion -> string;
  meta_Accessor : Object -> result unit;
  internal_DecodeObjectManagedFields : Object -> result Managed;
  internal_RemoveObjectManagedFields : Object -> Object;
  internal_EncodeObjectManagedFields : Object -> Managed -> result Object;
  internal_BuildManagerIdentifier : ManagedFieldsEntry -> result string;
  yaml_Unmarshal : list Byte.byte -> result Unstructured;
  GetManagedFields : Unstructured -> option (list ManagedFieldsEntry);
  GetAPIVersion : Unstructured -> string;
  Unstructured_Object : Unstructured -> Object;
  (* the text of a conflicts value and of a conflict status error *)
  Conflicts_Error : Conflicts -> string;
  ConflictError_Error : Conflicts -> string
}.

Section FieldManager.
Context `{C : Collaborators}.

(** The method [Error] of an error value, as the verb [%v] prints it. *)
Definition Error (e : error) : string :=
  match e with
  | fmt_Errorf msg => msg
  | errors_NewBadRequest msg => msg
  | internal_NewConflictError c => ConflictError_Error c
  | merge_Conflicts c => Conflicts_Error c
  | other_error msg => msg
  end.

(** [internal.TypeConverter] *)
Record TypeConverter := {
  ObjectToTyped : Object -> result Typed;
  TypedToObject : Typed -> result Object
}.

(** [runtime.ObjectConvertor] *)
Record ObjectConvertor := {
  ConvertToVersion : Object -> GroupVersion -> result Object
}.

(** [runtime.ObjectDefaulter]; [Default] works in place. *)
Record ObjectDefaulter := {
  Default : Object -> Object
}.

(** [merge.Updater] with its two methods. *)
Record Updater := {
  Updater_Update :
    Typed -> Typed -> fieldpath.APIVersion -> ManagedFields -> string ->
    merge_result (Typed * ManagedFields);
  Updater_Apply :
    Typed -> Typed -> fieldpath.APIVersion -> ManagedFields -> string -> bool ->
    merge_result (Typed * ManagedFields)
}.

Record fieldManager := {
  typeConverter : TypeConverter;
  objectConverter : ObjectConvertor;
  objectDefaulter : ObjectDefaulter;
  groupVersion : GroupVersion;
  hubVersion : GroupVersion;
  updater : Updater
}.

Definition toVersioned (f : fieldManager) (obj : Object) : result Object :=
  ConvertToVersion (objectConverter f) obj (groupVersion f).

Definition toUnversioned (f : fieldManager) (obj : Object) : result Object :=
  ConvertToVersion (objectConverter f) obj (hubVersion f).

Definition buildManagerInfo (f : fieldManager) (prefix : string)
    (operation : ManagedFieldsOperationType) : result string :=
  let managerInfo := {|
    Manager := prefix;
    Operation := operation;
    APIVersion := GroupVersion_String (groupVersion f)
  |} in
  let managerInfo :=
    if String.eqb (Manager managerInfo) ""
    then {| Manager := "unknown";
            Operation := Operation managerInfo;
            APIVersion := APIVersion managerInfo |}
    else managerInfo in
  internal_BuildManagerIdentifier managerInfo.

(** What [Update] and [Apply] return: an object or nil, an error or nil. *)
Definition returned : Type := option Object * option error.

(** The statement [managed.Fields = f.stripFields(fields, manager)] of
    lines 154 and 240: of the ledger [managed], only [Fields] is assigned. *)
Definition assign_stripFields (managed : Managed) (fields : ManagedFields)
    (manager : string) : outcome Managed :=
  match stripFields fields manager with
  | Panics msg => Panics msg
  | Returns fields => Returns {| Fields := fields; Times := Times managed |}
  end.

(** [Update], lines 112 to 124: the ledger of the new object, or the one of
    the live object; the error is the one [Update] returns. *)
Definition Update_decode (liveObj newObj : Object) : result Managed :=
  let fallback :=
    match internal_DecodeObjectManagedFields liveObj with
    | Err err =>
        Err (fmt_Errorf ("failed to decode managed fields: " +:+ Error err))
    | Ok managed => Ok managed
    end in
  match internal_DecodeObjectManagedFields newObj with
  | Err _ => fallback
  | Ok managed =>
      if bool_decide (size (Fields managed) = 0)
      then fallback
      else Ok managed
  end.

(** [Update], lines 105 to 173: either the call returns early, or the
    ledger [managed] is ready to be encoded. *)
Definition Update_managed (f : fieldManager) (liveObj newObj : Object)
    (manager : string) (now : Time) : outcome (returned + Managed) :=
  match meta_Accessor newObj with
  | Err _ => Returns (inl (Some newObj, None))
  | Ok _ =>
  match Update_decode liveObj newObj with
  | Err err => Returns (inl (None, Some err))
  | Ok managed =>
  match toVersioned f newObj with
  | Err err =>
      Returns (inl (None, Some (fmt_Errorf
        ("failed to convert new object to proper version: " +:+ Error err))))
  | Ok newObjVersioned =>
  match toVersioned f liveObj with
  | Err err =>
      Returns (inl (None, Some (fmt_Errorf
        ("failed to convert live object to proper version: " +:+ Error err))))
  | Ok liveObjVersioned =>
  let liveObjVersioned := internal_RemoveObjectManagedFields liveObjVersioned in
  let newObjVersioned := internal_RemoveObjectManagedFields newObjVersioned in
  match ObjectToTyped (typeConverter f) newObjVersioned with
  | Err _ => Returns (inl (Some newObj, None))
  | Ok newObjTyped =>
  match ObjectToTyped (typeConverter f) liveObjVersioned with
  | Err _ => Returns (inl (Some newObj, None))
  | Ok liveObjTyped =>
  let apiVersion := GroupVersion_String (groupVersion f) in
  match Updater_Update (updater f) liveObjTyped newObjTyped apiVersion
          (Fields managed) manager with
  | MergeFailed err =>
      Returns (inl (None, Some (fmt_Errorf
        ("failed to update ManagedFields: "
         +:+ Error (merge_error_to_error err)))))
  | Merged (_, fields) =>
  match assign_stripFields managed fields manager with
  | Panics msg => Panics msg
  | Returns managed =>
  match Fields managed !! manager with
  | Some vs =>
      let fields := delete manager (Fields managed) in
      match buildManagerInfo f manager ManagedFieldsOperationUpdate with
      | Err err =>
          Returns (inl (None, Some (fmt_Errorf
            ("failed to build manager identifier: " +:+ Error err))))
      | Ok manager =>
          let times := <[manager := now]> (Times managed) in
          match fields !! manager with
          | Some previous =>
              match vs, previous with
              | Some vs, Some previous =>
                  Returns (inr {|
                    Fields := <[manager := Some (NewVersionedSet
                                  (Set' vs ∪ Set' previous)
                                  (APIVersion' vs) (Applied vs))]> fields;
                    Times := times |})
              | _, _ =>
                  Panics "invalid memory address or nil pointer dereference"
              end
          | None =>
              Returns (inr {| Fields := <[manager := vs]> fields;
                              Times := times |})
          end
      end
  | None => Returns (inr managed)
  end end end end end end end end end.

(** [Update], lines 175 to 179. *)
Definition Update_encode (newObj : Object) (managed : Managed) : returned :=
  match internal_EncodeObjectManagedFields newObj managed with
  | Err err =>
      (None, Some (fmt_Errorf
        ("failed to encode managed fields: " +:+ Error err)))
  | Ok newObj => (Some newObj, None)
  end.

(** Update implements FieldManager.  [now] is the value of
    [time.Now().UTC()]. *)
Definition Update (f : fieldManager) (liveObj newObj : Object)
    (manager : string) (now : Time) : outcome returned :=
  match Update_managed f liveObj newObj manager now with
  | Panics msg => Panics msg
  | Returns (inl r) => Returns r
  | Returns (inr managed) => Returns (Update_encode newObj managed)
  end.

(** [Apply], lines 183 to 243: either the call returns early, or the merged
    typed object and the ledger [managed] are ready to be encoded. *)
Definition Apply_managed (f : fieldManager) (liveObj : Object)
    (patch : list Byte.byte) (fieldManager : string) (force : bool)
    (now : Time) : outcome (returned + Typed * Managed) :=
  match meta_Accessor liveObj with
  | Err err =>
      Returns (inl (None, Some (fmt_Errorf
        ("couldn't get accessor: " +:+ Error err))))
  | Ok _ =>
  match internal_DecodeObjectManagedFields liveObj with
  | Err err =>
      Returns (inl (None, Some (fmt_Errorf
        ("failed to decode managed fields: " +:+ Error err))))
  | Ok managed =>
  match yaml_Unmarshal patch with
  | Err err =>
      Returns (inl (None, Some (errors_NewBadRequest
        ("error decoding YAML: " +:+ Error err))))
  | Ok patchObj =>
  match GetManagedFields patchObj with
  | Some _ =>
      Returns (inl (None, Some (errors_NewBadRequest
        "metadata.managedFields must be nil")))
  | None =>
  if negb (String.eqb (GetAPIVersion patchObj)
                      (GroupVersion_String (groupVersion f)))
  then
      Returns (inl (None, Some (errors_NewBadRequest
        ("Incorrect version specified in apply patch. "
         +:+ "Specified patch version: " +:+ GetAPIVersion patchObj
         +:+ ", expected: " +:+ GroupVersion_String (groupVersion f)))))
  else
  match toVersioned f liveObj with
  | Err err =>
      Returns (inl (None, Some (fmt_Errorf
        ("failed to convert live object to proper version: " +:+ Error err))))
  | Ok liveObjVersioned =>
  let liveObjVersioned := internal_RemoveObjectManagedFields liveObjVersioned in
  match ObjectToTyped (typeConverter f) (Unstructured_Object patchObj) with
  | Err err =>
      Returns (inl (None, Some (fmt_Errorf
        ("failed to create typed patch object: " +:+ Error err))))
  | Ok patchObjTyped =>
  match ObjectToTyped (typeConverter f) liveObjVersioned with
  | Err err =>
      Returns (inl (None, Some (fmt_Errorf
        ("failed to create typed live object: " +:+ Error err))))
  | Ok liveObjTyped =>
  match buildManagerInfo f fieldManager ManagedFieldsOperationApply with
  | Err err =>
      Returns (inl (None, Some (fmt_Errorf
        ("failed to build manager identifier: " +:+ Error err))))
  | Ok manager =>
  let apiVersion := GroupVersion_String (groupVersion f) in
  match Updater_Apply (updater f) liveObjTyped patchObjTyped apiVersion
          (Fields managed) manager force with
  | MergeFailed err =>
      match err with
      | MergeConflicts conflicts =>
          Returns (inl (None, Some (internal_NewConflictError conflicts)))
      | _ => Returns (inl (None, Some (merge_error_to_error err)))
      end
  | Merged (newObjTyped, managedFields) =>
  match assign_stripFields managed managedFields manager with
  | Panics msg => Panics msg
  | Returns managed =>
      (* Update the time in the managedFieldsEntry for this operation *)
      Returns (inr (newObjTyped,
                    {| Fields := Fields managed;
                       Times := <[manager := now]> (Times managed) |}))
  end end end end end end end end end end.

(** [Apply], lines 245 to 264. *)
Definition Apply_encode (f : fieldManager) (newObjTyped : Typed)
    (managed : Managed) : returned :=
  match TypedToObject (typeConverter f) newObjTyped with
  | Err err =>
      (None, Some (fmt_Errorf
        ("failed to convert new typed object to object: " +:+ Error err)))
  | Ok newObj =>
  match internal_EncodeObjectManagedFields newObj managed with
  | Err err =>
      (None, Some (fmt_Errorf
        ("failed to encode managed fields: " +:+ Error err)))
  | Ok newObj =>
  match toVersioned f newObj with
  | Err err =>
      (None, Some (fmt_Errorf
        ("failed to convert new object to proper version: " +:+ Error err)))
  | Ok newObjVersioned =>
  let newObjVersioned := Default (objectDefaulter f) newObjVersioned in
  match toUnversioned f newObjVersioned with
  | Err err =>
      (None, Some (fmt_Errorf
        ("failed to convert to unversioned: " +:+ Error err)))
  | Ok newObjUnversioned => (Some newObjUnversioned, None)
  end end end end.

(** Apply implements FieldManager.  [now] is the value of
    [time.Now().UTC()]. *)
Definition Apply (f : fieldManager) (liveObj : Object)
    (patch : list Byte.byte) (fieldManager : string) (force : bool)
    (now : Time) : outcome returned :=
  match Apply_managed f liveObj patch fieldManager force now with
  | Panics msg => Panics msg
  | Returns (inl r) => Returns r
  | Returns (inr (newObjTyped, managed)) =>
      Returns (Apply_encode f newObjTyped managed)
  end.

(** An error of the bad-request class: made by [errors.NewBadRequest]. *)
Definition IsBadRequest (e : error) : bool :=
  match e with
  | errors_NewBadRequest _ => true
  | _ => false
  end.

End FieldManager.

(** ** Construction *)

(** What the two constructors use of other packages.  [models] is of an
    interface type and may be nil ([None]); [merge_Updater c] is the value
    [merge.Updater{Converter: c}] with its methods. *)
Class Construction `{C : Collaborators} := {
  Models : Type;                 (* a non-nil openapiproto.Models *)
  Converter : Type;              (* merge.Converter *)
  internal_NewTypeConverter : option Models -> bool -> result TypeConverter;
  internal_DeducedTypeConverter : TypeConverter;
  internal_NewVersionConverter :
    TypeConverter -> ObjectConvertor -> GroupVersion -> Converter;
  internal_NewCRDVersionConverter :
    TypeConverter -> ObjectConvertor -> GroupVersion -> Converter;
  merge_Updater : Converter -> Updater
}.

Section Constructors.
Context `{K : Construction}.

(** NewFieldManager creates a new FieldManager that merges apply requests
    and update managed fields for other types of requests. *)
Definition NewFieldManager (models : option Models)
    (objectConverter : ObjectConvertor) (objectDefaulter : ObjectDefaulter)
    (gv hub : GroupVersion) : result fieldManager :=
  match internal_NewTypeConverter models false with
  | Err err => Err err
  | Ok typeConverter =>
      Ok {| typeConverter := typeConverter;
            objectConverter := objectConverter;
            objectDefaulter := objectDefaulter;
            groupVersion := gv;
            hubVersion := hub;
            updater := merge_Updater
              (internal_NewVersionConverter typeConverter objectConverter
                 hub) |}
  end.

(** NewCRDFieldManager creates a new FieldManager specifically for CRDs.
    This allows for the possibility of fields which are not defined in
    models, as well as having no models defined at all. *)
Definition NewCRDFieldManager (models : option Models)
    (objectConverter : ObjectConvertor) (objectDefaulter : ObjectDefaulter)
    (gv hub : GroupVersion) (preserveUnknownFields : bool)
  : result fieldManager :=
  let converter :=
    match models with
    | Some _ => internal_NewTypeConverter models preserveUnknownFields
    | None => Ok internal_DeducedTypeConverter
    end in
  match converter with
  | Err err => Err err
  | Ok typeConverter =>
      Ok {| typeConverter := typeConverter;
            objectConverter := objectConverter;
            objectDefaulter := objectDefaulter;
            groupVersion := gv;
            hubVersion := hub;
            updater := merge_Updater
              (internal_NewCRDVersionConverter typeConverter objectConverter
                 hub) |}
  end.

End Constructors.

(** ** A small concrete set of collaborators

    Objects are records that say how each collaborator treats them; they are
    used to run [Update] and [Apply] on concrete inputs. *)

Module Sample.

Record object := {
  accessible : bool;            (* meta.Accessor succeeds *)
  stored : option Managed;      (* the ledger it carries; None: undecodable *)
  convertible : bool;           (* ConvertToVersion succeeds *)
  typable : bool;               (* ObjectToTyped succeeds *)
  owned : Set_                  (* the field paths its content sets *)
}.

Record document := {
  doc_managedFields : option (list ManagedFieldsEntry);
  doc_apiVersion : string;
  doc_owned : Set_
}.

Definition no_ledger : Managed := {| Fields := ∅; Times := ∅ |}.

Definition with_ledger (o : object) (m : Managed) : object :=
  {| accessible := accessible o; stored := Some m;
     convertible := convertible o; typable := typable o; owned := owned o |}.

Definition decode (o : object) : result Managed :=
  match stored o with
  | Some m => Ok m
  | None => Err (other_error "invalid managed fields")
  end.

Definition operation_name (op : ManagedFieldsOperationType) : string :=
  match op with
  | ManagedFieldsOperationApply => "Apply"
  | ManagedFieldsOperationUpdate => "Update"
  end.

Definition identifier (e : ManagedFieldsEntry) : result string :=
  Ok (Manager e +:+ "/" +:+ operation_name (Operation e)
      +:+ "/" +:+ APIVersion e).

Definition spec_path : Path := MakePathOrDie ["spec"; "replicas"].
Definition status_path : Path := MakePathOrDie ["status"; "replicas"].
Definition name_path : Path := MakePathOrDie ["metadata"; "name"].

(** A document at version v1, one at version v2, one at v1 with an empty
    managedFields list, and one at v1 that sets only a bookkeeping field. *)
Definition doc_v1 : document :=
  {| doc_managedFields := None; doc_apiVersion := "v1";
     doc_owned := {[ spec_path ]} |}.
Definition doc_v2 : document :=
  {| doc_managedFields := None; doc_apiVersion := "v2";
     doc_owned := {[ spec_path ]} |}.
Definition doc_ledger : document :=
  {| doc_managedFields := Some []; doc_apiVersion := "v1";
     doc_owned := {[ spec_path ]} |}.
Definition doc_bookkeeping : document :=
  {| doc_managedFields := None; doc_apiVersion := "v1";
     doc_owned := {[ name_path ]} |}.

(** The patch is read from its first byte; a patch that starts with none
    of the four bytes below does not parse. *)
Definition parse (patch : list Byte.byte) : result document :=
  match patch with
  | Byte.x01 :: _ => Ok doc_v1
  | Byte.x02 :: _ => Ok doc_v2
  | Byte.x03 :: _ => Ok doc_ledger
  | Byte.x04 :: _ => Ok doc_bookkeeping
  | _ => Err (other_error "yaml: did not find expected node content")
  end.

Definition document_object (d : document) : object :=
  {| accessible := true; stored := Some no_ledger; convertible := true;
     typable := true; owned := doc_owned d |}.

#[export] Instance collaborators : Collaborators := {|
  Object := object;
  Typed := object;
  Unstructured := document;
  GroupVersion := string;
  GroupVersion_String := fun gv => gv;
  meta_Accessor := fun o =>
    if accessible o then Ok tt
    else Err (other_error "object does not implement the Object interfaces");
  internal_DecodeObjectManagedFields := decode;
  internal_RemoveObjectManagedFields := fun o => with_ledger o no_ledger;
  internal_EncodeObjectManagedFields := fun o m => Ok (with_ledger o m);
  internal_BuildManagerIdentifier := identifier;
  yaml_Unmarshal := parse;
  GetManagedFields := doc_managedFields;
  GetAPIVersion := doc_apiVersion;
  Unstructured_Object := document_object;
  Conflicts_Error := fun _ => "conflict";
  ConflictError_Error := fun _ => "Apply failed with conflicts"
|}.

Definition converter : TypeConverter := {|
  ObjectToTyped := fun o =>
    if typable o then Ok o else Err (other_error "no type found");
  TypedToObject := fun t => Ok t
|}.

Definition convertor : ObjectConvertor := {|
  ConvertToVersion := fun o _ =>
    if convertible o then Ok o else Err (other_error "no kind registered")
|}.

Definition defaulter : ObjectDefaulter := {| Default := fun o => o |}.

(** A merge engine that gives the acting manager the paths of the new
    object; with [conflicting], Apply reports a conflict unless forced, and
    with [broken] it fails. *)
Definition engine (conflicting broken : bool) : Updater := {|
  Updater_Update := fun _ newTyped version managers manager =>
    Merged (newTyped,
            <[manager := Some (NewVersionedSet (owned newTyped) version false)]>
              managers);
  Updater_Apply := fun _ patchTyped version managers manager force =>
    if broken then MergeFailed (MergeFailure "failed to merge config")
    else if conflicting && negb force
    then MergeFailed (MergeConflicts [("other", spec_path)])
    else Merged (patchTyped,
            <[manager :=
                Some (NewVersionedSet (owned patchTyped) version true)]>
              managers)
|}.

Definition manager_with (u : Updater) : fieldManager := {|
  typeConverter := converter;
  objectConverter := convertor;
  objectDefaulter := defaulter;
  groupVersion := "v1";
  hubVersion := "__internal";
  updater := u
|}.

Definition fm : fieldManager := manager_with (engine false false).

Definition plain : object :=
  {| accessible := true; stored := Some no_ledger; convertible := true;
     typable := true; owned := {[ spec_path; name_path ]} |}.

Definition bare : object :=
  {| accessible := false; stored := None; convertible := true;
     typable := true; owned := ∅ |}.

Definition unconvertible : object :=
  {| accessible := true; stored := Some no_ledger; convertible := false;
     typable := true; owned := {[ spec_path ]} |}.

Definition undecodable : object :=
  {| accessible := true; stored := None; convertible := true;
     typable := true; owned := {[ spec_path ]} |}.

(** An object whose ledger already has an entry for the Update identity of
    the manager kubectl. *)
Definition kubectl_update : string := "kubectl/Update/v1".
Definition kubectl_apply : string := "kubectl/Apply/v1".

Definition tracked_ledger : Managed :=
  {| Fields :=
       {[ kubectl_update :=
            Some (NewVersionedSet {[ status_path ]} "v1" false) ]};
     Times := {[ kubectl_update := 3%Z ]} |}.

Definition tracked : object :=
  {| accessible := true; stored := Some tracked_ledger; convertible := true;
     typable := true; owned := {[ spec_path; name_path ]} |}.

(** An object that converts and cannot be made a typed object, one whose
    content sets only a bookkeeping field, an engine that refuses every
    merge, and one whose Apply records nil for the acting manager. *)
Definition untypable : object :=
  {| accessible := true; stored := Some no_ledger; convertible := true;
     typable := false; owned := {[ spec_path ]} |}.

Definition named : object :=
  {| accessible := true; stored := Some no_ledger; convertible := true;
     typable := true; owned := {[ name_path ]} |}.

Definition refusing : Updater := {|
  Updater_Update := fun _ _ _ _ _ =>
    MergeFailed (MergeConflicts [("other", spec_path)]);
  Updater_Apply := fun _ _ _ _ _ _ =>
    MergeFailed (MergeFailure "failed to merge config")
|}.

Definition forgetful : Updater := {|
  Updater_Update := fun _ newTyped _ managers manager =>
    Merged (newTyped, <[manager := None]> managers);
  Updater_Apply := fun _ patchTyped _ managers manager _ =>
    Merged (patchTyped, <[manager := None]> managers)
|}.

End Sample.

(** Construction for the collaborators of [Sample]: the models are a flag
    that says whether they parse; nil models do not. *)
Module SampleConstruction.
Import Sample.

#[export] Instance construction : Construction := {|
  Models := bool;
  Converter := GroupVersion;
  internal_NewTypeConverter := fun models _ =>
    match models with
    | Some true => Ok converter
    | _ => Err (other_error "no models")
    end;
  internal_DeducedTypeConverter := converter;
  internal_NewVersionConverter := fun _ _ hub => hub;
  internal_NewCRDVersionConverter := fun _ _ hub => hub;
  merge_Updater := fun _ => engine false false
|}.

End SampleConstruction.

Example Update_sample :
  Update Sample.fm Sample.plain Sample.plain "kubectl" 7%Z =
  Returns (Some (Sample.with_ledger Sample.plain
                   {| Fields :=
                        {[ Sample.kubectl_update :=
                             Some (NewVersionedSet {[ Sample.spec_path ]}
                                     "v1" false) ]};
                      Times := {[ Sample.kubectl_update := 7%Z ]} |}),
           None).
Proof. vm_compute. reflexivity. Qed.

Example Apply_sample :
  Apply Sample.fm Sample.plain [Byte.x01] "" false 7%Z =
  Returns (Some (Sample.with_ledger (Sample.document_object Sample.doc_v1)
                   {| Fields :=
                        {[ "unknown/Apply/v1" :=
                             Some (NewVersionedSet {[ Sample.spec_path ]}
                                     "v1" true) ]};
                      Times := {[ "unknown/Apply/v1" := 7%Z ]} |}),
           None).
Proof. vm_compute. reflexivity. Qed.

Example stripFields_sample :
  stripFields {[ "m" := Some (NewVersionedSet
                   {[ Sample.spec_path; Sample.name_path ]} "v1" false) ]} "m"
  = Returns
      {[ "m" := Some (NewVersionedSet {[ Sample.spec_path ]} "v1" false) ]}.
Proof. vm_compute. reflexivity. Qed.

(** * Properties *)

(** ** Strings *)

Lemma append_nil_r (s : string) : s +:+ "" = s.
Proof.
  induction s as [| a s IH]; [done |].
  change (String a (s +:+ "") = String a s). by rewrite IH.
Qed.

Lemma append_assoc (s1 s2 s3 : string) :
  (s1 +:+ s2) +:+ s3 = s1 +:+ (s2 +:+ s3).
Proof.
  induction s1 as [| a s1 IH]; [done |].
  change (String a ((s1 +:+ s2) +:+ s3) = String a (s1 +:+ (s2 +:+ s3))).
  by rewrite IH.
Qed.

(** ** The field stripper *)

(** The paths of [stripSet], spelled out. *)
Lemma elem_of_stripSet (p : Path) :
  p ∈ stripSet ↔
  p = [FieldName "apiVersion"] ∨ p = [FieldName "kind"] ∨
  p = [FieldName "metadata"] ∨
  ∃ n, p = [FieldName "metadata"; FieldName n] ∧
       n ∈ ["name"; "namespace"; "creationTimestamp"; "selfLink"; "uid";
            "clusterName"; "generation"; "managedFields"; "resourceVersion"].
Proof.
  unfold stripSet, NewSet, MakePathOrDie.
  rewrite elem_of_list_to_set. cbn [fmap list_fmap].
  rewrite !elem_of_cons, elem_of_nil. split.
  - intros H. repeat (destruct H as [-> | H]); try tauto;
      try (right; right; right; eexists; split; [reflexivity |];
           rewrite !elem_of_cons; tauto).
  - intros [-> | [-> | [-> | (n & -> & Hn)]]]; try tauto.
    rewrite !elem_of_cons, elem_of_nil in Hn.
    repeat (destruct Hn as [-> | Hn]); tauto.
Qed.

Lemma Empty_true (s : Set_) : Empty s = true ↔ s = ∅.
Proof. unfold Empty. apply bool_decide_eq_true. Qed.

Lemma Empty_false (s : Set_) : Empty s = false ↔ s ≠ ∅.
Proof. unfold Empty. apply bool_decide_eq_false. Qed.

(** [stripFields] on an identity that is absent returns the ledger as it
    is. *)
Lemma stripFields_absent (managed : ManagedFields) (manager : string) :
  managed !! manager = None → stripFields managed manager = Returns managed.
Proof. intros H. unfold stripFields. by rewrite H. Qed.

(** [stripFields] on an identity with a set whose difference is empty. *)
Lemma stripFields_emptied (managed : ManagedFields) (manager : string)
    (vs : VersionedSet) :
  managed !! manager = Some (Some vs) →
  Set' vs ∖ stripSet = ∅ →
  stripFields managed manager = Returns (delete manager managed).
Proof.
  intros H Hd. unfold stripFields. rewrite H.
  apply Empty_true in Hd. by rewrite Hd.
Qed.

(** [stripFields] on an identity with a set whose difference is not
    empty. *)
Lemma stripFields_kept (managed : ManagedFields) (manager : string)
    (vs : VersionedSet) :
  managed !! manager = Some (Some vs) →
  Set' vs ∖ stripSet ≠ ∅ →
  stripFields managed manager =
    Returns (<[manager := Some (NewVersionedSet (Set' vs ∖ stripSet)
                                  (APIVersion' vs) (Applied vs))]> managed).
Proof.
  intros H Hd. unfold stripFields. rewrite H.
  apply Empty_false in Hd. by rewrite Hd.
Qed.

(** C6: for a ledger and an identity present in it with a non-nil set,
    [stripFields] returns a ledger in which the identity's set is its
    difference against the fixed bookkeeping set (apiVersion, kind,
    metadata and the nine listed paths under metadata): when the difference
    is empty the entry is deleted, otherwise the entry is a new versioned
    set with the reduced set, the original API version and the original
    applied flag. *)
Theorem stripFields_difference (managed : ManagedFields) (manager : string)
    (vs : VersionedSet) :
  managed !! manager = Some (Some vs) →
  (∀ p, p ∈ stripSet ↔
     p = [FieldName "apiVersion"] ∨ p = [FieldName "kind"] ∨
     p = [FieldName "metadata"] ∨
     ∃ n, p = [FieldName "metadata"; FieldName n] ∧
          n ∈ ["name"; "namespace"; "creationTimestamp"; "selfLink"; "uid";
               "clusterName"; "generation"; "managedFields";
               "resourceVersion"]) ∧
  ∃ managed',
    stripFields managed manager = Returns managed' ∧
    (Set' vs ∖ stripSet = ∅ →
       managed' = delete manager managed ∧ managed' !! manager = None) ∧
    (Set' vs ∖ stripSet ≠ ∅ →
       managed' !! manager =
         Some (Some (NewVersionedSet (Set' vs ∖ stripSet)
                       (APIVersion' vs) (Applied vs)))).
Proof.
  intros H. split; [apply elem_of_stripSet |].
  destruct (decide (Set' vs ∖ stripSet = ∅)) as [Hd | Hd].
  - eexists. split; [by apply (stripFields_emptied _ _ vs) |].
    split; [| done]. intros _. split; [done | apply lookup_delete_eq].
  - eexists. split; [by apply (stripFields_kept _ _ vs) |].
    split; [done |]. intros _. apply lookup_insert_eq.
Qed.

(** C8: when the identity's key is present and holds nil, [stripFields]
    panics (it neither returns an error nor repairs the ledger), and it
    panics in no other case; on a ledger whose every present key holds a
    non-nil set it returns, whatever the identity. *)
Theorem stripFields_nil_panics (managed : ManagedFields) (manager : string) :
  (managed !! manager = Some None →
     stripFields managed manager =
       Panics ("Found unexpected nil manager which should never happen: "
               +:+ manager)) ∧
  ((∃ msg, stripFields managed manager = Panics msg) →
     managed !! manager = Some None) ∧
  ((∀ k v, managed !! k = Some v → is_Some v) →
     ∀ ident, ∃ managed', stripFields managed ident = Returns managed').
Proof.
  split; [| split].
  - intros H. unfold stripFields. by rewrite H.
  - intros [msg H]. unfold stripFields in H.
    destruct (managed !! manager) as [[vs |] |]; [| done | done].
    by destruct (Empty _).
  - intros Hinv ident. unfold stripFields.
    destruct (managed !! ident) as [v |] eqn:Hl; [| by eexists].
    destruct (Hinv _ _ Hl) as [vs ->].
    destruct (Empty _); by eexists.
Qed.

(** C9: the statement [managed.Fields = stripFields(fields, manager)]
    changes at most the entry of [manager]: every other identity has the
    entry it had in [fields], and the times of the ledger are the same. *)
Theorem stripFields_frame (managed managed' : Managed)
    (fields : ManagedFields) (manager : string) :
  assign_stripFields managed fields manager = Returns managed' →
  stripFields fields manager = Returns (Fields managed') ∧
  (∀ other, other ≠ manager → Fields managed' !! other = fields !! other) ∧
  Times managed' = Times managed.
Proof.
  unfold assign_stripFields.
  destruct (stripFields fields manager) as [fields' |] eqn:Hs; [| done].
  intros [= <-]. cbn. split; [done |]. split; [| done].
  intros other Hne. unfold stripFields in Hs.
  destruct (fields !! manager) as [[vs |] |]; [| done | by simplify_eq].
  destruct (Empty _); simplify_eq.
  - by rewrite lookup_delete_ne.
  - by rewrite lookup_insert_ne.
Qed.

(** ** Update *)

Section UpdateProperties.
Context `{C : Collaborators}.
Implicit Types (f : fieldManager) (liveObj newObj : Object).
Implicit Types (manager ident : string) (now : Time).

(** [Update] once the accessor is there and the ledger is decoded. *)
Lemma Update_managed_decoded f liveObj newObj manager now u managed :
  meta_Accessor newObj = Ok u →
  Update_decode liveObj newObj = Ok managed →
  Update_managed f liveObj newObj manager now =
  match toVersioned f newObj with
  | Err err =>
      Returns (inl (None, Some (fmt_Errorf
        ("failed to convert new object to proper version: " +:+ Error err))))
  | Ok newObjVersioned =>
  match toVersioned f liveObj with
  | Err err =>
      Returns (inl (None, Some (fmt_Errorf
        ("failed to convert live object to proper version: " +:+ Error err))))
  | Ok liveObjVersioned =>
  match ObjectToTyped (typeConverter f)
          (internal_RemoveObjectManagedFields newObjVersioned) with
  | Err _ => Returns (inl (Some newObj, None))
  | Ok newObjTyped =>
  match ObjectToTyped (typeConverter f)
          (internal_RemoveObjectManagedFields liveObjVersioned) with
  | Err _ => Returns (inl (Some newObj, None))
  | Ok liveObjTyped =>
  match Updater_Update (updater f) liveObjTyped newObjTyped
          (GroupVersion_String (groupVersion f)) (Fields managed) manager with
  | MergeFailed err =>
      Returns (inl (None, Some (fmt_Errorf
        ("failed to update ManagedFields: "
         +:+ Error (merge_error_to_error err)))))
  | Merged (_, fields) =>
  match assign_stripFields managed fields manager with
  | Panics msg => Panics msg
  | Returns managed =>
  match Fields managed !! manager with
  | Some vs =>
      match buildManagerInfo f manager ManagedFieldsOperationUpdate with
      | Err err =>
          Returns (inl (None, Some (fmt_Errorf
            ("failed to build manager identifier: " +:+ Error err))))
      | Ok ident =>
          match delete manager (Fields managed) !! ident with
          | Some previous =>
              match vs, previous with
              | Some vs, Some previous =>
                  Returns (inr {|
                    Fields := <[ident := Some (NewVersionedSet
                                  (Set' vs ∪ Set' previous)
                                  (APIVersion' vs) (Applied vs))]>
                                (delete manager (Fields managed));
                    Times := <[ident := now]> (Times managed) |})
              | _, _ =>
                  Panics "invalid memory address or nil pointer dereference"
              end
          | None =>
              Returns (inr {|
                Fields := <[ident := vs]> (delete manager (Fields managed));
                Times := <[ident := now]> (Times managed) |})
          end
      end
  | None => Returns (inr managed)
  end end end end end end end.
Proof. intros Ha Hd. unfold Update_managed. by rewrite Ha, Hd. Qed.

(** C7: when the incoming object exposes no accessor, [Update] returns that
    object and no error, whatever the live object, the manager name and the
    ledgers are. *)
Theorem Update_without_accessor f liveObj newObj manager now err :
  meta_Accessor newObj = Err err →
  Update f liveObj newObj manager now = Returns (Some newObj, None).
Proof. intros H. unfold Update, Update_managed. by rewrite H. Qed.

(** C1, as amended: once the incoming object has an accessor and the ledger
    is decoded, a failure to convert the incoming object to the working
    version, or (that one converted) the live object, makes [Update] return
    no object and an error that wraps the conversion error. *)
Theorem Update_conversion_failure f liveObj newObj manager now u managed :
  meta_Accessor newObj = Ok u →
  Update_decode liveObj newObj = Ok managed →
  (∀ err, toVersioned f newObj = Err err →
     Update f liveObj newObj manager now =
       Returns (None, Some (fmt_Errorf
         ("failed to convert new object to proper version: "
          +:+ Error err)))) ∧
  (∀ newObjVersioned err,
     toVersioned f newObj = Ok newObjVersioned →
     toVersioned f liveObj = Err err →
     Update f liveObj newObj manager now =
       Returns (None, Some (fmt_Errorf
         ("failed to convert live object to proper version: "
          +:+ Error err)))).
Proof.
  intros Ha Hd. split.
  - intros err Hn. unfold Update.
    by rewrite (Update_managed_decoded _ _ _ _ _ u managed), Hn.
  - intros nv err Hn Hl. unfold Update.
    by rewrite (Update_managed_decoded _ _ _ _ _ u managed), Hn, Hl.
Qed.

(** The ledger is that of the incoming object when it decodes to a ledger
    that is not empty. *)
Lemma Update_decode_new liveObj newObj managed :
  internal_DecodeObjectManagedFields newObj = Ok managed →
  size (Fields managed) ≠ 0 →
  Update_decode liveObj newObj = Ok managed.
Proof.
  intros H Hs. unfold Update_decode. rewrite H.
  by rewrite bool_decide_eq_false_2.
Qed.

(** Otherwise it is what decoding the live object gives. *)
Lemma Update_decode_live liveObj newObj :
  (∃ err, internal_DecodeObjectManagedFields newObj = Err err) ∨
  (∃ managed, internal_DecodeObjectManagedFields newObj = Ok managed ∧
              size (Fields managed) = 0) →
  Update_decode liveObj newObj =
    match internal_DecodeObjectManagedFields liveObj with
    | Err err =>
        Err (fmt_Errorf ("failed to decode managed fields: " +:+ Error err))
    | Ok managed => Ok managed
    end.
Proof.
  intros [[err H] | (managed & H & Hs)]; unfold Update_decode; rewrite H.
  - done.
  - by rewrite bool_decide_eq_true_2.
Qed.

(** An error of [Update_decode] is the decode error of the live object. *)
Lemma Update_decode_Err liveObj newObj e :
  Update_decode liveObj newObj = Err e →
  ((∃ err, internal_DecodeObjectManagedFields newObj = Err err) ∨
   (∃ managed, internal_DecodeObjectManagedFields newObj = Ok managed ∧
               size (Fields managed) = 0)) ∧
  ∃ err, internal_DecodeObjectManagedFields liveObj = Err err ∧
         e = fmt_Errorf ("failed to decode managed fields: " +:+ Error err).
Proof.
  unfold Update_decode.
  destruct (internal_DecodeObjectManagedFields newObj) as [m | err0] eqn:Hn.
  - case_bool_decide as Hs; [| done].
    destruct (internal_DecodeObjectManagedFields liveObj) as [| err]; [done |].
    intros [= <-]. split; [right; by exists m | by exists err].
  - destruct (internal_DecodeObjectManagedFields liveObj) as [| err]; [done |].
    intros [= <-]. split; [left; by exists err0 | by exists err].
Qed.

(** The errors [Update] makes after the ledger is decoded are not decode
    errors. *)
Lemma Update_managed_decoded_not_decode_error
    f liveObj newObj manager now u managed msg :
  meta_Accessor newObj = Ok u →
  Update_decode liveObj newObj = Ok managed →
  Update f liveObj newObj manager now ≠
    Returns (None, Some (fmt_Errorf
      ("failed to decode managed fields: " +:+ msg))).
Proof.
  intros Ha Hd. unfold Update.
  rewrite (Update_managed_decoded _ _ _ _ _ u managed Ha Hd).
  unfold Update_encode.
  repeat case_match; try done; intros [=]; by simplify_eq/=.
Qed.

(** C5: [Update] takes the ledger of the incoming object when that one
    decodes and is not empty, and otherwise the ledger of the live object;
    it returns the decode error exactly when the incoming object has an
    accessor, its ledger fails to decode or is empty, and the ledger of the
    live object fails to decode.  So a failure to decode the incoming
    object, with a live object that decodes, gives no decode error. *)
Theorem Update_decode_fallback f liveObj newObj manager now :
  (∀ managed,
     internal_DecodeObjectManagedFields newObj = Ok managed →
     size (Fields managed) ≠ 0 →
     Update_decode liveObj newObj = Ok managed) ∧
  ((∃ err, internal_DecodeObjectManagedFields newObj = Err err) ∨
   (∃ managed, internal_DecodeObjectManagedFields newObj = Ok managed ∧
               size (Fields managed) = 0) →
   ∀ managed,
     internal_DecodeObjectManagedFields liveObj = Ok managed →
     Update_decode liveObj newObj = Ok managed) ∧
  (∀ msg,
     Update f liveObj newObj manager now =
       Returns (None, Some (fmt_Errorf
         ("failed to decode managed fields: " +:+ msg))) ↔
     (∃ u, meta_Accessor newObj = Ok u) ∧
     ((∃ err, internal_DecodeObjectManagedFields newObj = Err err) ∨
      (∃ managed, internal_DecodeObjectManagedFields newObj = Ok managed ∧
                  size (Fields managed) = 0)) ∧
     (∃ err, internal_DecodeObjectManagedFields liveObj = Err err ∧
             Error err = msg)).
Proof.
  split; [| split].
  - intros managed. apply Update_decode_new.
  - intros Hnew managed Hlive.
    by rewrite (Update_decode_live _ _ Hnew), Hlive.
  - intros msg. split.
    + intros HU.
      destruct (meta_Accessor newObj) as [u | e] eqn:Ha.
      2: { unfold Update, Update_managed in HU. by rewrite Ha in HU. }
      destruct (Update_decode liveObj newObj) as [managed | e] eqn:Hd.
      { by destruct
          (Update_managed_decoded_not_decode_error
             f liveObj newObj manager now u managed msg Ha Hd). }
      destruct (Update_decode_Err _ _ _ Hd) as (Hnew & err & Hlive & ->).
      unfold Update, Update_managed in HU. rewrite Ha, Hd in HU.
      split; [by exists u |]. split; [done |]. exists err. split; [done |].
      by simplify_eq/=.
    + intros ([u Ha] & Hnew & err & Hlive & <-).
      unfold Update, Update_managed.
      by rewrite Ha, (Update_decode_live _ _ Hnew), Hlive.
Qed.

(** C2: when the set that the merge engine gives the acting manager is not
    empty once stripped, [Update] deletes the entry of the plain name,
    builds the identity for the Update operation, sets the time of that
    identity to [now], and records under it the stripped set united with the
    set that was already under that identity, if any, with the API version
    and the applied flag of the new set; the previous set is included in the
    recorded one.  The entries of the other keys are those the engine
    returned, and this ledger is the one that is encoded. *)
Theorem Update_accumulates f liveObj newObj manager now u managed
    newObjVersioned liveObjVersioned newObjTyped liveObjTyped
    merged fields vs ident :
  meta_Accessor newObj = Ok u →
  Update_decode liveObj newObj = Ok managed →
  toVersioned f newObj = Ok newObjVersioned →
  toVersioned f liveObj = Ok liveObjVersioned →
  ObjectToTyped (typeConverter f)
    (internal_RemoveObjectManagedFields newObjVersioned) = Ok newObjTyped →
  ObjectToTyped (typeConverter f)
    (internal_RemoveObjectManagedFields liveObjVersioned) = Ok liveObjTyped →
  Updater_Update (updater f) liveObjTyped newObjTyped
    (GroupVersion_String (groupVersion f)) (Fields managed) manager
    = Merged (merged, fields) →
  fields !! manager = Some (Some vs) →
  Set' vs ∖ stripSet ≠ ∅ →
  buildManagerInfo f manager ManagedFieldsOperationUpdate = Ok ident →
  fields !! ident ≠ Some None →
  ∃ managed',
    Update_managed f liveObj newObj manager now = Returns (inr managed') ∧
    Update f liveObj newObj manager now
      = Returns (Update_encode newObj managed') ∧
    (ident ≠ manager → Fields managed' !! manager = None) ∧
    Times managed' = <[ident := now]> (Times managed) ∧
    Times managed' !! ident = Some now ∧
    (delete manager fields !! ident = None →
       Fields managed' !! ident =
         Some (Some (NewVersionedSet (Set' vs ∖ stripSet)
                       (APIVersion' vs) (Applied vs)))) ∧
    (∀ previous,
       delete manager fields !! ident = Some (Some previous) →
       Fields managed' !! ident =
         Some (Some (NewVersionedSet
                       ((Set' vs ∖ stripSet) ∪ Set' previous)
                       (APIVersion' vs) (Applied vs))) ∧
       ∀ recorded, Fields managed' !! ident = Some (Some recorded) →
                   Set' previous ⊆ Set' recorded) ∧
    (∀ other, other ≠ manager → other ≠ ident →
       Fields managed' !! other = fields !! other).
Proof.
  intros Ha Hd Hnv Hlv Hnt Hlt Hup Hvs Hne Hid Hnil.
  assert (Hstrip : assign_stripFields managed fields manager =
            Returns {| Fields := <[manager := Some (NewVersionedSet
                                   (Set' vs ∖ stripSet) (APIVersion' vs)
                                   (Applied vs))]> fields;
                       Times := Times managed |}).
  { unfold assign_stripFields. by rewrite (stripFields_kept _ _ vs). }
  assert (Hdel : ∀ v, delete manager (<[manager := v]> fields)
                      = delete manager fields).
  { intros v. apply delete_insert_eq. }
  pose proof (Update_managed_decoded f liveObj newObj manager now u managed
                Ha Hd) as HU.
  rewrite Hnv, Hlv, Hnt, Hlt, Hup, Hstrip in HU. cbn [Fields Times] in HU.
  rewrite lookup_insert_eq, Hid, Hdel in HU.
  destruct (delete manager fields !! ident) as [[previous |] |] eqn:Hprev.
  - eexists. split; [exact HU |]. split; [unfold Update; by rewrite HU |].
    cbn [Fields Times].
    split. { intros Hn. by rewrite lookup_insert_ne, lookup_delete_eq. }
    split; [done |]. split; [apply lookup_insert_eq |].
    split; [done |]. split.
    + intros p [= <-]. split; [apply lookup_insert_eq |].
      intros recorded. rewrite lookup_insert_eq. intros [= <-]. cbn.
      set_solver.
    + intros other Hm Hi.
      by rewrite lookup_insert_ne, lookup_delete_ne.
  - exfalso. apply Hnil.
    destruct (decide (manager = ident)) as [-> | Hn].
    + by rewrite lookup_delete_eq in Hprev.
    + by rewrite lookup_delete_ne in Hprev.
  - eexists. split; [exact HU |]. split; [unfold Update; by rewrite HU |].
    cbn [Fields Times].
    split. { intros Hn. by rewrite lookup_insert_ne, lookup_delete_eq. }
    split; [done |]. split; [apply lookup_insert_eq |].
    split; [intros _; apply lookup_insert_eq |]. split; [done |].
    intros other Hm Hi.
    by rewrite lookup_insert_ne, lookup_delete_ne.
Qed.

End UpdateProperties.

(** ** Apply *)

Section ApplyProperties.
Context `{C : Collaborators}.
Implicit Types (f : fieldManager) (liveObj : Object) (patch : list Byte.byte).
Implicit Types (managerName ident : string) (force : bool) (now : Time).

(** [Apply] once the live object and the patch are accepted, converted and
    typed, and the identity is built: what is left is the merge. *)
Lemma Apply_managed_merge f liveObj patch managerName force now
    u managed patchObj liveObjVersioned patchObjTyped liveObjTyped ident :
  meta_Accessor liveObj = Ok u →
  internal_DecodeObjectManagedFields liveObj = Ok managed →
  yaml_Unmarshal patch = Ok patchObj →
  GetManagedFields patchObj = None →
  GetAPIVersion patchObj = GroupVersion_String (groupVersion f) →
  toVersioned f liveObj = Ok liveObjVersioned →
  ObjectToTyped (typeConverter f) (Unstructured_Object patchObj)
    = Ok patchObjTyped →
  ObjectToTyped (typeConverter f)
    (internal_RemoveObjectManagedFields liveObjVersioned) = Ok liveObjTyped →
  buildManagerInfo f managerName ManagedFieldsOperationApply = Ok ident →
  Apply_managed f liveObj patch managerName force now =
  match Updater_Apply (updater f) liveObjTyped patchObjTyped
          (GroupVersion_String (groupVersion f)) (Fields managed) ident
          force with
  | MergeFailed err =>
      match err with
      | MergeConflicts conflicts =>
          Returns (inl (None, Some (internal_NewConflictError conflicts)))
      | _ => Returns (inl (None, Some (merge_error_to_error err)))
      end
  | Merged (newObjTyped, managedFields) =>
  match assign_stripFields managed managedFields ident with
  | Panics msg => Panics msg
  | Returns managed =>
      Returns (inr (newObjTyped,
                    {| Fields := Fields managed;
                       Times := <[ident := now]> (Times managed) |}))
  end end.
Proof.
  intros Ha Hd Hy Hm Hv Hl Hpt Hlt Hid. unfold Apply_managed.
  rewrite Ha, Hd, Hy, Hm, Hv, String.eqb_refl. cbn [negb].
  by rewrite Hl, Hpt, Hlt, Hid.
Qed.

(** C3: when the merge engine's Apply fails, [Apply] returns no object;
    the error is the conflict error made from the conflicts when the
    failure is a conflicts value, and the engine's own error otherwise. *)
Theorem Apply_merge_failure f liveObj patch managerName force now
    u managed patchObj liveObjVersioned patchObjTyped liveObjTyped ident err :
  meta_Accessor liveObj = Ok u →
  internal_DecodeObjectManagedFields liveObj = Ok managed →
  yaml_Unmarshal patch = Ok patchObj →
  GetManagedFields patchObj = None →
  GetAPIVersion patchObj = GroupVersion_String (groupVersion f) →
  toVersioned f liveObj = Ok liveObjVersioned →
  ObjectToTyped (typeConverter f) (Unstructured_Object patchObj)
    = Ok patchObjTyped →
  ObjectToTyped (typeConverter f)
    (internal_RemoveObjectManagedFields liveObjVersioned) = Ok liveObjTyped →
  buildManagerInfo f managerName ManagedFieldsOperationApply = Ok ident →
  Updater_Apply (updater f) liveObjTyped patchObjTyped
    (GroupVersion_String (groupVersion f)) (Fields managed) ident force
    = MergeFailed err →
  (∀ conflicts, err = MergeConflicts conflicts →
     Apply f liveObj patch managerName force now
       = Returns (None, Some (internal_NewConflictError conflicts))) ∧
  (∀ msg, err = MergeFailure msg →
     Apply f liveObj patch managerName force now
       = Returns (None, Some (merge_error_to_error err))).
Proof.
  intros Ha Hd Hy Hm Hv Hl Hpt Hlt Hid Hmerge.
  pose proof (Apply_managed_merge f liveObj patch managerName force now
                u managed patchObj liveObjVersioned patchObjTyped
                liveObjTyped ident Ha Hd Hy Hm Hv Hl Hpt Hlt Hid) as HA.
  rewrite Hmerge in HA.
  split; intros x ->; unfold Apply; by rewrite HA.
Qed.

(** C10: after a merge that succeeds, [Apply] sets the time of the built
    identity to [now] whatever the stripping did; when the stripping
    empties the set of that identity and deletes its entry, the ledger that
    is encoded has a time for the identity and no field set for it. *)
Theorem Apply_time_without_fields f liveObj patch managerName force now
    u managed patchObj liveObjVersioned patchObjTyped liveObjTyped ident
    newObjTyped managedFields :
  meta_Accessor liveObj = Ok u →
  internal_DecodeObjectManagedFields liveObj = Ok managed →
  yaml_Unmarshal patch = Ok patchObj →
  GetManagedFields patchObj = None →
  GetAPIVersion patchObj = GroupVersion_String (groupVersion f) →
  toVersioned f liveObj = Ok liveObjVersioned →
  ObjectToTyped (typeConverter f) (Unstructured_Object patchObj)
    = Ok patchObjTyped →
  ObjectToTyped (typeConverter f)
    (internal_RemoveObjectManagedFields liveObjVersioned) = Ok liveObjTyped →
  buildManagerInfo f managerName ManagedFieldsOperationApply = Ok ident →
  Updater_Apply (updater f) liveObjTyped patchObjTyped
    (GroupVersion_String (groupVersion f)) (Fields managed) ident force
    = Merged (newObjTyped, managedFields) →
  (∀ fields,
     stripFields managedFields ident = Returns fields →
     ∃ managed',
       Apply_managed f liveObj patch managerName force now
         = Returns (inr (newObjTyped, managed')) ∧
       Apply f liveObj patch managerName force now
         = Returns (Apply_encode f newObjTyped managed') ∧
       Fields managed' = fields ∧
       Times managed' !! ident = Some now) ∧
  (∀ vs,
     managedFields !! ident = Some (Some vs) →
     Set' vs ∖ stripSet = ∅ →
     ∃ managed',
       Apply_managed f liveObj patch managerName force now
         = Returns (inr (newObjTyped, managed')) ∧
       Apply f liveObj patch managerName force now
         = Returns (Apply_encode f newObjTyped managed') ∧
       Times managed' !! ident = Some now ∧
       Fields managed' !! ident = None).
Proof.
  intros Ha Hd Hy Hm Hv Hl Hpt Hlt Hid Hmerge.
  pose proof (Apply_managed_merge f liveObj patch managerName force now
                u managed patchObj liveObjVersioned patchObjTyped
                liveObjTyped ident Ha Hd Hy Hm Hv Hl Hpt Hlt Hid) as HA.
  rewrite Hmerge in HA. unfold assign_stripFields in HA.
  assert (Hgen : ∀ fields,
     stripFields managedFields ident = Returns fields →
     ∃ managed',
       Apply_managed f liveObj patch managerName force now
         = Returns (inr (newObjTyped, managed')) ∧
       Apply f liveObj patch managerName force now
         = Returns (Apply_encode f newObjTyped managed') ∧
       Fields managed' = fields ∧
       Times managed' !! ident = Some now).
  { intros fields Hs. rewrite Hs in HA. cbn [Fields Times] in HA.
    eexists. split; [exact HA |]. split; [unfold Apply; by rewrite HA |].
    cbn [Fields Times]. split; [done | apply lookup_insert_eq]. }
  split; [exact Hgen |].
  intros vs Hvs Hempty.
  destruct (Hgen _ (stripFields_emptied _ _ vs Hvs Hempty))
    as (managed' & H1 & H2 & H3 & H4).
  exists managed'. repeat split; try done.
  rewrite H3. apply lookup_delete_eq.
Qed.

(** [Apply] once the live object has an accessor and a ledger that decodes:
    the checks of the patch. *)
Lemma Apply_managed_patch f liveObj patch managerName force now u managed :
  meta_Accessor liveObj = Ok u →
  internal_DecodeObjectManagedFields liveObj = Ok managed →
  (∀ err, yaml_Unmarshal patch = Err err →
     Apply_managed f liveObj patch managerName force now =
       Returns (inl (None, Some (errors_NewBadRequest
         ("error decoding YAML: " +:+ Error err))))) ∧
  (∀ patchObj entries,
     yaml_Unmarshal patch = Ok patchObj →
     GetManagedFields patchObj = Some entries →
     Apply_managed f liveObj patch managerName force now =
       Returns (inl (None, Some (errors_NewBadRequest
         "metadata.managedFields must be nil")))) ∧
  (∀ patchObj,
     yaml_Unmarshal patch = Ok patchObj →
     GetManagedFields patchObj = None →
     GetAPIVersion patchObj ≠ GroupVersion_String (groupVersion f) →
     Apply_managed f liveObj patch managerName force now =
       Returns (inl (None, Some (errors_NewBadRequest
         ("Incorrect version specified in apply patch. "
          +:+ "Specified patch version: " +:+ GetAPIVersion patchObj
          +:+ ", expected: " +:+ GroupVersion_String (groupVersion f)))))).
Proof.
  intros Ha Hd. unfold Apply_managed. rewrite Ha, Hd.
  split; [| split].
  - by intros err ->.
  - by intros patchObj entries -> ->.
  - intros patchObj -> -> Hv. apply String.eqb_neq in Hv. by rewrite Hv.
Qed.

(** After the checks of the patch, no error of [Apply] is of the
    bad-request class. *)
Lemma Apply_accepted_not_bad_request f liveObj patch managerName force now
    u managed patchObj o e :
  meta_Accessor liveObj = Ok u →
  internal_DecodeObjectManagedFields liveObj = Ok managed →
  yaml_Unmarshal patch = Ok patchObj →
  GetManagedFields patchObj = None →
  GetAPIVersion patchObj = GroupVersion_String (groupVersion f) →
  Apply f liveObj patch managerName force now = Returns (o, Some e) →
  IsBadRequest e = false.
Proof.
  intros Ha Hd Hy Hm Hv. unfold Apply, Apply_managed, Apply_encode.
  rewrite Ha, Hd, Hy, Hm, Hv, String.eqb_refl. cbn [negb].
  repeat case_match; intros [=]; by simplify_eq/=.
Qed.

(** C4, as amended: for a live object that has an accessor and a ledger
    that decodes, [Apply] returns an error of the bad-request class exactly
    when the patch fails to parse, or its managedFields read as non-nil, or
    its API version differs from the working version; such an error comes
    with no object; and on a version mismatch the message holds both the
    version of the patch and the expected one. *)
Theorem Apply_bad_request f liveObj patch managerName force now u managed :
  meta_Accessor liveObj = Ok u →
  internal_DecodeObjectManagedFields liveObj = Ok managed →
  ((∃ o e, Apply f liveObj patch managerName force now = Returns (o, Some e) ∧
           IsBadRequest e = true) ↔
   (∃ err, yaml_Unmarshal patch = Err err) ∨
   (∃ patchObj, yaml_Unmarshal patch = Ok patchObj ∧
      (GetManagedFields patchObj ≠ None ∨
       GetAPIVersion patchObj ≠ GroupVersion_String (groupVersion f)))) ∧
  (∀ o e, Apply f liveObj patch managerName force now = Returns (o, Some e) →
          IsBadRequest e = true → o = None) ∧
  (∀ patchObj,
     yaml_Unmarshal patch = Ok patchObj →
     GetManagedFields patchObj = None →
     GetAPIVersion patchObj ≠ GroupVersion_String (groupVersion f) →
     ∃ msg,
       Apply f liveObj patch managerName force now
         = Returns (None, Some (errors_NewBadRequest msg)) ∧
       (∃ pre post, msg = pre +:+ GetAPIVersion patchObj +:+ post) ∧
       (∃ pre post,
          msg = pre +:+ GroupVersion_String (groupVersion f) +:+ post)).
Proof.
  intros Ha Hd.
  destruct (Apply_managed_patch f liveObj patch managerName force now
              u managed Ha Hd) as (Hparse & Hledger & Hversion).
  assert (Hrejected :
    (∃ err, yaml_Unmarshal patch = Err err) ∨
    (∃ patchObj, yaml_Unmarshal patch = Ok patchObj ∧
       (GetManagedFields patchObj ≠ None ∨
        GetAPIVersion patchObj ≠ GroupVersion_String (groupVersion f))) →
    ∃ msg, Apply f liveObj patch managerName force now
             = Returns (None, Some (errors_NewBadRequest msg))).
  { intros [[err Hy] | (patchObj & Hy & Hbad)]; unfold Apply.
    - rewrite (Hparse _ Hy). by eexists.
    - destruct (GetManagedFields patchObj) as [entries |] eqn:Hm.
      + rewrite (Hledger _ _ Hy Hm). by eexists.
      + destruct Hbad as [Hbad | Hbad]; [done |].
        rewrite (Hversion _ Hy Hm Hbad). by eexists. }
  assert (Haccepted : ∀ o e,
    Apply f liveObj patch managerName force now = Returns (o, Some e) →
    IsBadRequest e = true →
    (∃ err, yaml_Unmarshal patch = Err err) ∨
    (∃ patchObj, yaml_Unmarshal patch = Ok patchObj ∧
       (GetManagedFields patchObj ≠ None ∨
        GetAPIVersion patchObj ≠ GroupVersion_String (groupVersion f)))).
  { intros o e HA Hbr.
    destruct (yaml_Unmarshal patch) as [patchObj | err] eqn:Hy;
      [| left; by eexists].
    right. exists patchObj. split; [done |].
    destruct (GetManagedFields patchObj) as [entries |] eqn:Hm;
      [by left |].
    right. intros Hv.
    pose proof (Apply_accepted_not_bad_request f liveObj patch managerName
                  force now u managed patchObj o e Ha Hd Hy Hm Hv HA).
    congruence. }
  split; [| split].
  - split.
    + intros (o & e & HA & Hbr). by apply (Haccepted o e).
    + intros Hrej. destruct (Hrejected Hrej) as [msg HA].
      by exists None, (errors_NewBadRequest msg).
  - intros o e HA Hbr.
    destruct (Hrejected (Haccepted o e HA Hbr)) as [msg HA'].
    congruence.
  - intros patchObj Hy Hm Hv. eexists. split.
    + unfold Apply. by rewrite (Hversion _ Hy Hm Hv).
    + split.
      * by exists
          "Incorrect version specified in apply patch. Specified patch version: ",
          (", expected: " +:+ GroupVersion_String (groupVersion f)).
      * exists
          ("Incorrect version specified in apply patch. "
           +:+ "Specified patch version: " +:+ GetAPIVersion patchObj
           +:+ ", expected: "), "".
        by rewrite append_nil_r, !append_assoc.
Qed.

End ApplyProperties.

(** * The properties on concrete inputs *)

Import Sample.

(** Decide a decidable proposition by evaluation. *)
Ltac by_evaluation := apply (bool_decide_unpack _); vm_compute; exact I.

(** C6 on a ledger where ["m"] owns a spec path and [metadata.name]: the
    entry keeps the spec path, the version and the flag. *)
Lemma stripFields_difference_witness :
  ∃ managed',
    stripFields
      {[ "m" := Some (NewVersionedSet {[ spec_path; name_path ]} "v1" true) ]}
      "m" = Returns managed' ∧
    managed' !! "m" = Some (Some (NewVersionedSet {[ spec_path ]} "v1" true)).
Proof.
  destruct (stripFields_difference
              {[ "m" := Some (NewVersionedSet {[ spec_path; name_path ]}
                                "v1" true) ]}
              "m" (NewVersionedSet {[ spec_path; name_path ]} "v1" true))
    as (_ & managed' & Hs & _ & Hkept).
  { vm_compute. reflexivity. }
  exists managed'. split; [exact Hs |].
  rewrite Hkept; [vm_compute; reflexivity | by_evaluation].
Defined.

(** C8 on a ledger where ["m"] holds nil, and on one where it does not. *)
Lemma stripFields_nil_panics_witness :
  stripFields {[ "m" := None ]} "m"
    = Panics "Found unexpected nil manager which should never happen: m" ∧
  ∃ managed',
    stripFields {[ "m" := Some (NewVersionedSet {[ name_path ]} "v1" true) ]}
      "m" = Returns managed'.
Proof.
  split.
  - apply (proj1 (stripFields_nil_panics {[ "m" := None ]} "m")).
    vm_compute. reflexivity.
  - apply (proj2 (proj2 (stripFields_nil_panics
             {[ "m" := Some (NewVersionedSet {[ name_path ]} "v1" true) ]}
             "m"))).
    intros k v Hk. apply lookup_singleton_Some in Hk as [_ <-]. by eexists.
Defined.

(** C9 on a ledger with two identities and one time. *)
Lemma stripFields_frame_witness :
  ∃ managed',
    assign_stripFields
      {| Fields := ∅; Times := {[ "n" := 3%Z ]} |}
      {[ "m" := Some (NewVersionedSet {[ name_path ]} "v1" true);
         "n" := Some (NewVersionedSet {[ name_path ]} "v1" false) ]}
      "m" = Returns managed' ∧
    Fields managed' !! "n"
      = Some (Some (NewVersionedSet {[ name_path ]} "v1" false)) ∧
    Times managed' = {[ "n" := 3%Z ]}.
Proof.
  exists {| Fields :=
              {[ "n" := Some (NewVersionedSet {[ name_path ]} "v1" false) ]};
            Times := {[ "n" := 3%Z ]} |}.
  split; [vm_compute; reflexivity |].
  destruct (stripFields_frame
              {| Fields := ∅; Times := {[ "n" := 3%Z ]} |}
              {| Fields :=
                   {[ "n" := Some (NewVersionedSet {[ name_path ]}
                                     "v1" false) ]};
                 Times := {[ "n" := 3%Z ]} |}
              {[ "m" := Some (NewVersionedSet {[ name_path ]} "v1" true);
                 "n" := Some (NewVersionedSet {[ name_path ]} "v1" false) ]}
              "m") as (_ & Hother & Htimes).
  { vm_compute. reflexivity. }
  split; [| exact Htimes].
  rewrite (Hother "n"); [vm_compute; reflexivity | by_evaluation].
Defined.

(** C7 on an object without accessor. *)
Lemma Update_without_accessor_witness :
  Update fm plain bare "kubectl" 7%Z = Returns (Some bare, None).
Proof.
  apply (Update_without_accessor fm plain bare "kubectl" 7%Z
           (other_error "object does not implement the Object interfaces")).
  reflexivity.
Defined.

(** C1 as stated fails: the incoming object does not convert, and [Update]
    returns an error and no object. *)
Lemma Update_conversion_failure_counterexample :
  toVersioned fm unconvertible = Err (other_error "no kind registered") ∧
  Update fm plain unconvertible "kubectl" 7%Z =
    Returns (None, Some (fmt_Errorf
      "failed to convert new object to proper version: no kind registered")) ∧
  Update fm plain unconvertible "kubectl" 7%Z
    ≠ Returns (Some unconvertible, None).
Proof.
  split; [reflexivity |]. split; [vm_compute; reflexivity |].
  vm_compute. discriminate.
Qed.

(** C1 as amended, on an incoming and on a live object that do not
    convert. *)
Lemma Update_conversion_failure_witness :
  Update fm plain unconvertible "kubectl" 7%Z =
    Returns (None, Some (fmt_Errorf
      "failed to convert new object to proper version: no kind registered")) ∧
  Update fm unconvertible plain "kubectl" 7%Z =
    Returns (None, Some (fmt_Errorf
      "failed to convert live object to proper version: no kind registered")).
Proof.
  split.
  - apply (proj1 (Update_conversion_failure fm plain unconvertible "kubectl"
                    7%Z tt no_ledger eq_refl eq_refl)
             (other_error "no kind registered")).
    reflexivity.
  - apply (proj2 (Update_conversion_failure fm unconvertible plain "kubectl"
                    7%Z tt no_ledger eq_refl eq_refl)
             plain (other_error "no kind registered")); reflexivity.
Defined.

(** C5 on an incoming object whose ledger does not decode: with a live
    object that decodes the ledger is the live one, and with a live object
    that does not decode [Update] returns the decode error. *)
Lemma Update_decode_fallback_witness :
  Update_decode plain undecodable = Ok no_ledger ∧
  Update fm undecodable undecodable "kubectl" 7%Z =
    Returns (None, Some (fmt_Errorf
      ("failed to decode managed fields: " +:+ "invalid managed fields"))).
Proof.
  split.
  - apply (proj1 (proj2 (Update_decode_fallback fm plain undecodable
                           "kubectl" 7%Z))); [| reflexivity].
    left. by eexists.
  - apply (proj2 (proj2 (Update_decode_fallback fm undecodable undecodable
                           "kubectl" 7%Z))).
    split; [by exists tt |]. split; [left; by eexists |].
    by exists (other_error "invalid managed fields").
Defined.

(** C2 on an update by kubectl of an object whose ledger has a status path
    under kubectl's Update identity: the identity ends with the spec path
    and the status path, at time 7, and the plain name has no entry. *)
Lemma Update_accumulates_witness :
  ∃ managed',
    Update_managed fm plain tracked "kubectl" 7%Z = Returns (inr managed') ∧
    Fields managed' !! "kubectl" = None ∧
    Times managed' !! kubectl_update = Some 7%Z ∧
    Fields managed' !! kubectl_update =
      Some (Some (NewVersionedSet {[ spec_path; status_path ]} "v1" false)).
Proof.
  destruct (Update_accumulates fm plain tracked "kubectl" 7%Z
              tt tracked_ledger tracked plain
              (with_ledger tracked no_ledger) (with_ledger plain no_ledger)
              (with_ledger tracked no_ledger)
              (<["kubectl" := Some (NewVersionedSet {[ spec_path; name_path ]}
                                      "v1" false)]> (Fields tracked_ledger))
              (NewVersionedSet {[ spec_path; name_path ]} "v1" false)
              kubectl_update)
    as (managed' & HU & _ & Hplain & _ & Htime & _ & Hprev & _);
    try (vm_compute; reflexivity).
  { by_evaluation. }
  { vm_compute. discriminate. }
  exists managed'. split; [exact HU |].
  split; [apply Hplain; by_evaluation |]. split; [exact Htime |].
  destruct (Hprev (NewVersionedSet {[ status_path ]} "v1" false)) as [-> _];
    vm_compute; reflexivity.
Defined.

(** C3 with an engine that reports a conflict, and with one that fails. *)
Lemma Apply_merge_failure_witness :
  Apply (manager_with (engine true false)) plain [Byte.x01] "kubectl" false
    7%Z = Returns (None,
                   Some (internal_NewConflictError [("other", spec_path)])) ∧
  Apply (manager_with (engine false true)) plain [Byte.x01] "kubectl" false
    7%Z = Returns (None, Some (other_error "failed to merge config")).
Proof.
  split.
  - destruct (Apply_merge_failure (manager_with (engine true false)) plain
                [Byte.x01] "kubectl" false 7%Z tt no_ledger doc_v1 plain
                (document_object doc_v1) (with_ledger plain no_ledger)
                kubectl_apply (MergeConflicts [("other", spec_path)]))
      as [Hconflicts _]; [vm_compute; reflexivity .. |].
    by apply Hconflicts.
  - destruct (Apply_merge_failure (manager_with (engine false true)) plain
                [Byte.x01] "kubectl" false 7%Z tt no_ledger doc_v1 plain
                (document_object doc_v1) (with_ledger plain no_ledger)
                kubectl_apply (MergeFailure "failed to merge config"))
      as [_ Hother]; [vm_compute; reflexivity .. |].
    by apply (Hother "failed to merge config").
Defined.

(** C10 on a patch that sets only [metadata.name]: the ledger to encode has
    the time 7 for kubectl's Apply identity and no field set for it. *)
Lemma Apply_time_without_fields_witness :
  ∃ managed',
    Apply_managed fm plain [Byte.x04] "kubectl" false 7%Z
      = Returns (inr (document_object doc_bookkeeping, managed')) ∧
    Times managed' !! kubectl_apply = Some 7%Z ∧
    Fields managed' !! kubectl_apply = None.
Proof.
  destruct (Apply_time_without_fields fm plain [Byte.x04] "kubectl" false 7%Z
              tt no_ledger doc_bookkeeping plain
              (document_object doc_bookkeeping) (with_ledger plain no_ledger)
              kubectl_apply (document_object doc_bookkeeping)
              {[ kubectl_apply :=
                   Some (NewVersionedSet {[ name_path ]} "v1" true) ]})
    as [_ Hemptied]; [vm_compute; reflexivity .. |].
  destruct (Hemptied (NewVersionedSet {[ name_path ]} "v1" true))
    as (managed' & HA & _ & Htime & Hfields);
    [vm_compute; reflexivity .. |].
  by exists managed'.
Defined.

(** C4 as stated fails: a patch that does not parse, for a live object
    without accessor, gives an error that is not of the bad-request class;
    and a patch at the working version whose managedFields list is empty
    gives a bad-request error. *)
Lemma Apply_bad_request_counterexample :
  (yaml_Unmarshal []
     = Err (other_error "yaml: did not find expected node content") ∧
   Apply fm bare [] "kubectl" false 7%Z =
     Returns (None, Some (fmt_Errorf
       "couldn't get accessor: object does not implement the Object interfaces")) ∧
   IsBadRequest (fmt_Errorf
     "couldn't get accessor: object does not implement the Object interfaces")
     = false) ∧
  (yaml_Unmarshal [Byte.x03] = Ok doc_ledger ∧
   GetManagedFields doc_ledger = Some [] ∧
   GetAPIVersion doc_ledger = GroupVersion_String (groupVersion fm) ∧
   Apply fm plain [Byte.x03] "kubectl" false 7%Z =
     Returns (None, Some (errors_NewBadRequest
       "metadata.managedFields must be nil"))).
Proof. repeat split; vm_compute; reflexivity. Qed.

(** C4 as amended, on a patch at version v2 for a manager at version v1,
    and on a patch that does not parse. *)
Lemma Apply_bad_request_witness :
  (∃ msg,
     Apply fm plain [Byte.x02] "kubectl" false 7%Z
       = Returns (None, Some (errors_NewBadRequest msg)) ∧
     (∃ pre post, msg = pre +:+ "v2" +:+ post) ∧
     (∃ pre post, msg = pre +:+ "v1" +:+ post)) ∧
  (∃ o e, Apply fm plain [] "kubectl" false 7%Z = Returns (o, Some e) ∧
          IsBadRequest e = true).
Proof.
  split.
  - apply (proj2 (proj2 (Apply_bad_request fm plain [Byte.x02] "kubectl"
                           false 7%Z tt no_ledger eq_refl eq_refl)) doc_v2).
    + reflexivity.
    + reflexivity.
    + vm_compute. discriminate.
  - apply (proj1 (Apply_bad_request fm plain [] "kubectl" false 7%Z
                    tt no_ledger eq_refl eq_refl)).
    left. by eexists.
Defined.

(** * Further properties *)

(** ** Lookups in the ledger that [stripFields] returns *)

Lemma stripFields_Returns_other (managed managed' : ManagedFields)
    (manager other : string) :
  stripFields managed manager = Returns managed' →
  other ≠ manager →
  managed' !! other = managed !! other.
Proof.
  unfold stripFields. intros Hs Hne.
  destruct (managed !! manager) as [[vs |] |]; [| done |].
  - destruct (Empty _); injection Hs as <-.
    + by rewrite lookup_delete_ne.
    + by rewrite lookup_insert_ne.
  - by injection Hs as <-.
Qed.

Lemma stripFields_Returns_same (managed managed' : ManagedFields)
    (manager : string) v :
  stripFields managed manager = Returns managed' →
  managed' !! manager = Some v →
  ∃ vs, managed !! manager = Some (Some vs) ∧
        Set' vs ∖ stripSet ≠ ∅ ∧
        v = Some (NewVersionedSet (Set' vs ∖ stripSet)
                    (APIVersion' vs) (Applied vs)).
Proof.
  unfold stripFields. intros Hs Hv.
  destruct (managed !! manager) as [[vs |] |] eqn:Hl; [| done |].
  - destruct (Empty _) eqn:He; injection Hs as <-.
    + by rewrite lookup_delete_eq in Hv.
    + rewrite lookup_insert_eq in Hv. injection Hv as <-.
      exists vs. split; [done |]. split; [by apply Empty_false | done].
  - injection Hs as <-. congruence.
Qed.

Lemma difference_stripSet_clean (s : Set_) (p : Path) :
  p ∈ stripSet → p ∉ s ∖ stripSet.
Proof. intros Hp. rewrite elem_of_difference. tauto. Qed.

(** ** The field stripper, further *)

(** X1: in the ledger that [stripFields] returns, the identity either has no
    entry, or has a non-nil set that is not empty and holds no path of
    [stripSet]. *)
Theorem stripFields_absorbing (managed managed' : ManagedFields)
    (manager : string) :
  stripFields managed manager = Returns managed' →
  managed' !! manager = None ∨
  ∃ vs', managed' !! manager = Some (Some vs') ∧
         Set' vs' ≠ ∅ ∧ ∀ p, p ∈ stripSet → p ∉ Set' vs'.
Proof.
  unfold stripFields.
  destruct (managed !! manager) as [[vs |] |] eqn:Hl; [| done |].
  - destruct (Empty (Set' vs ∖ stripSet)) eqn:He; intros ?; simplify_eq.
    + left. apply lookup_delete_eq.
    + right. eexists. split; [apply lookup_insert_eq |]. cbn.
      split; [by apply Empty_false | set_solver].
  - intros ?; simplify_eq. by left.
Qed.

(** X2: stripping an identity twice is stripping it once. *)
Theorem stripFields_idempotent (managed managed' : ManagedFields)
    (manager : string) :
  stripFields managed manager = Returns managed' →
  stripFields managed' manager = Returns managed'.
Proof.
  unfold stripFields at 1.
  destruct (managed !! manager) as [[vs |] |] eqn:Hl; [| done |].
  - destruct (Empty (Set' vs ∖ stripSet)) eqn:He; intros ?; simplify_eq.
    + apply stripFields_absent, lookup_delete_eq.
    + apply Empty_false in He.
      assert (Hd : Set' vs ∖ stripSet ∖ stripSet = Set' vs ∖ stripSet)
        by set_solver.
      rewrite (stripFields_kept _ _
                 (NewVersionedSet (Set' vs ∖ stripSet) (APIVersion' vs)
                    (Applied vs))); cbn [Set' APIVersion' Applied].
      * by rewrite Hd, insert_insert_eq.
      * apply lookup_insert_eq.
      * by rewrite Hd.
  - intros ?; simplify_eq. by apply stripFields_absent.
Qed.

(** X3: [stripFields] only shrinks the ledger: every entry of the result is
    an entry of the given ledger, nil where it was nil, and otherwise with
    the same API version and applied flag and a set included in the one it
    had. *)
Theorem stripFields_only_shrinks (managed managed' : ManagedFields)
    (manager : string) :
  stripFields managed manager = Returns managed' →
  ∀ k v', managed' !! k = Some v' →
    ∃ v, managed !! k = Some v ∧
         match v', v with
         | Some vs', Some vs =>
             Set' vs' ⊆ Set' vs ∧ APIVersion' vs' = APIVersion' vs ∧
             Applied vs' = Applied vs
         | None, None => True
         | _, _ => False
         end.
Proof.
  assert (Hsame : ∀ k v', managed !! k = Some v' →
            ∃ v, managed !! k = Some v ∧
                 match v', v with
                 | Some vs', Some vs =>
                     Set' vs' ⊆ Set' vs ∧ APIVersion' vs' = APIVersion' vs ∧
                     Applied vs' = Applied vs
                 | None, None => True
                 | _, _ => False
                 end).
  { intros k v' Hk. exists v'. split; [done |]. by destruct v'. }
  unfold stripFields.
  destruct (managed !! manager) as [[vs |] |] eqn:Hl; [| done |].
  - destruct (Empty (Set' vs ∖ stripSet)); intros Heq k v' Hk;
      injection Heq as <-.
    + apply lookup_delete_Some in Hk as [_ Hk]. by apply Hsame.
    + apply lookup_insert_Some in Hk as [[<- <-] | [_ Hk]];
        [| by apply Hsame].
      exists (Some vs). split; [done |]. cbn. split; [set_solver | done].
  - intros Heq. injection Heq as <-. exact Hsame.
Qed.

(** X4: when the set of the identity is not empty and holds no path of
    [stripSet], [stripFields] returns the ledger as it was given. *)
Theorem stripFields_clean (managed : ManagedFields) (manager : string)
    (vs : VersionedSet) :
  managed !! manager = Some (Some vs) →
  Set' vs ≠ ∅ →
  (∀ p, p ∈ stripSet → p ∉ Set' vs) →
  stripFields managed manager = Returns managed.
Proof.
  intros Hl Hne Hclean.
  assert (Hd : Set' vs ∖ stripSet = Set' vs).
  { apply set_eq. intros p. rewrite elem_of_difference. naive_solver. }
  rewrite (stripFields_kept _ _ vs Hl); [| by rewrite Hd].
  rewrite Hd. f_equal. apply insert_id. by destruct vs.
Qed.

(** ** Update, further *)

Section UpdateFurther.
Context `{C : Collaborators}.
Implicit Types (f : fieldManager) (liveObj newObj : Object).
Implicit Types (manager ident : string) (now : Time).

(** The ways in which [Update] gets to a ledger to encode. *)
Lemma Update_managed_inr f liveObj newObj manager now managed' :
  Update_managed f liveObj newObj manager now = Returns (inr managed') →
  ∃ managed liveObjTyped newObjTyped merged fields stripped,
    Update_decode liveObj newObj = Ok managed ∧
    Updater_Update (updater f) liveObjTyped newObjTyped
      (GroupVersion_String (groupVersion f)) (Fields managed) manager
      = Merged (merged, fields) ∧
    stripFields fields manager = Returns stripped ∧
    ((stripped !! manager = None ∧
      managed' = {| Fields := stripped; Times := Times managed |}) ∨
     (∃ v ident,
        stripped !! manager = Some v ∧
        buildManagerInfo f manager ManagedFieldsOperationUpdate = Ok ident ∧
        delete manager stripped !! ident = None ∧
        managed' = {| Fields := <[ident := v]> (delete manager stripped);
                      Times := <[ident := now]> (Times managed) |}) ∨
     (∃ vs previous ident,
        stripped !! manager = Some (Some vs) ∧
        buildManagerInfo f manager ManagedFieldsOperationUpdate = Ok ident ∧
        delete manager stripped !! ident = Some (Some previous) ∧
        managed' =
          {| Fields := <[ident := Some (NewVersionedSet
                                   (Set' vs ∪ Set' previous)
                                   (APIVersion' vs) (Applied vs))]>
                         (delete manager stripped);
             Times := <[ident := now]> (Times managed) |})).
Proof.
  unfold Update_managed, assign_stripFields.
  destruct (meta_Accessor newObj); [| done].
  destruct (Update_decode liveObj newObj) as [managed |]; [| done].
  destruct (toVersioned f newObj) as [nv |]; [| done].
  destruct (toVersioned f liveObj) as [lv |]; [| done].
  destruct (ObjectToTyped _ _) as [nt |]; [| done].
  destruct (ObjectToTyped _ _) as [lt |]; [| done].
  destruct (Updater_Update _ _ _ _ _ _) as [[merged fields] |] eqn:Hup;
    [| done].
  destruct (stripFields fields manager) as [stripped |] eqn:Hs; [| done].
  cbn [Fields Times].
  intros H. exists managed, lt, nt, merged, fields, stripped.
  split; [done |]. split; [done |]. split; [done |].
  destruct (stripped !! manager) as [v |] eqn:Hv.
  - destruct (buildManagerInfo _ _ _) as [ident |]; [| done].
    destruct (delete manager stripped !! ident) as [previous |] eqn:Hp.
    + destruct v as [vs |]; [| done]. destruct previous as [previous |];
        [| done].
      injection H as <-. right. right. by exists vs, previous, ident.
    + injection H as <-. right. left. by exists v, ident.
  - injection H as <-. by left.
Qed.

(** The ways in which [Update] panics. *)
Lemma Update_managed_Panics f liveObj newObj manager now msg :
  Update_managed f liveObj newObj manager now = Panics msg →
  ∃ managed liveObjTyped newObjTyped merged fields,
    Update_decode liveObj newObj = Ok managed ∧
    Updater_Update (updater f) liveObjTyped newObjTyped
      (GroupVersion_String (groupVersion f)) (Fields managed) manager
      = Merged (merged, fields) ∧
    (fields !! manager = Some None ∨
     ∃ ident, ident ≠ manager ∧
       buildManagerInfo f manager ManagedFieldsOperationUpdate = Ok ident ∧
       fields !! ident = Some None).
Proof.
  unfold Update_managed, assign_stripFields.
  destruct (meta_Accessor newObj); [| done].
  destruct (Update_decode liveObj newObj) as [managed |]; [| done].
  destruct (toVersioned f newObj) as [nv |]; [| done].
  destruct (toVersioned f liveObj) as [lv |]; [| done].
  destruct (ObjectToTyped _ _) as [nt |]; [| done].
  destruct (ObjectToTyped _ _) as [lt |]; [| done].
  destruct (Updater_Update _ _ _ _ _ _) as [[merged fields] |] eqn:Hup;
    [| done].
  intros H. exists managed, lt, nt, merged, fields.
  split; [done |]. split; [done |].
  destruct (stripFields fields manager) as [stripped |] eqn:Hs.
  - cbn [Fields Times] in H.
    destruct (stripped !! manager) as [v |] eqn:Hv; [| done].
    destruct (buildManagerInfo _ _ _) as [ident |]; [| done].
    destruct (delete manager stripped !! ident) as [previous |] eqn:Hp;
      [| done].
    apply lookup_delete_Some in Hp as [Hne Hp].
    right. exists ident. split; [done |]. split; [done |].
    assert (Hv' : ∃ vs, v = Some vs).
    { unfold stripFields in Hs.
      destruct (fields !! manager) as [[vs0 |] |] eqn:Hfm; [| done |].
      - destruct (Empty _); injection Hs as <-.
        + by rewrite lookup_delete_eq in Hv.
        + rewrite lookup_insert_eq in Hv. injection Hv as <-. by eexists.
      - injection Hs as <-. congruence. }
    destruct Hv' as [vs ->]. destruct previous as [previous |]; [done |].
    unfold stripFields in Hs.
    destruct (fields !! manager) as [[vs0 |] |] eqn:Hfm; [| done |].
    + destruct (Empty _); injection Hs as <-.
      * by rewrite lookup_delete_ne in Hp.
      * by rewrite lookup_insert_ne in Hp.
    + by injection Hs as <-.
  - left. unfold stripFields in Hs.
    destruct (fields !! manager) as [[vs0 |] |] eqn:Hfm; [| done | done].
    by destruct (Empty _).
Qed.

(** What [Update] returns before it has a ledger to encode: the incoming
    object as it is, or an error. *)
Lemma Update_managed_inl f liveObj newObj manager now r :
  Update_managed f liveObj newObj manager now = Returns (inl r) →
  r = (Some newObj, None) ∨ ∃ e, r = (None, Some e).
Proof.
  unfold Update_managed.
  repeat case_match; intros ?; simplify_eq; eauto.
Qed.

(** X5: when both objects convert to the working version and one of them
    cannot be made a typed object, [Update] returns the incoming object and
    no error. *)
Theorem Update_typed_failure f liveObj newObj manager now u managed
    newObjVersioned liveObjVersioned :
  meta_Accessor newObj = Ok u →
  Update_decode liveObj newObj = Ok managed →
  toVersioned f newObj = Ok newObjVersioned →
  toVersioned f liveObj = Ok liveObjVersioned →
  (∃ err, ObjectToTyped (typeConverter f)
            (internal_RemoveObjectManagedFields newObjVersioned) = Err err) ∨
  (∃ err, ObjectToTyped (typeConverter f)
            (internal_RemoveObjectManagedFields liveObjVersioned) = Err err) →
  Update f liveObj newObj manager now = Returns (Some newObj, None).
Proof.
  intros Ha Hd Hnv Hlv Hfail. unfold Update.
  rewrite (Update_managed_decoded _ _ _ _ _ u managed Ha Hd), Hnv, Hlv.
  destruct Hfail as [[err Hn] | [err Hl]].
  - by rewrite Hn.
  - destruct (ObjectToTyped (typeConverter f)
                (internal_RemoveObjectManagedFields newObjVersioned));
      [| done].
    by rewrite Hl.
Qed.

(** X6: a failure of the merge engine's Update, a conflicts value included,
    makes [Update] return no object and a plain error that wraps the text
    of the failure. *)
Theorem Update_merge_failure f liveObj newObj manager now u managed
    newObjVersioned liveObjVersioned newObjTyped liveObjTyped err :
  meta_Accessor newObj = Ok u →
  Update_decode liveObj newObj = Ok managed →
  toVersioned f newObj = Ok newObjVersioned →
  toVersioned f liveObj = Ok liveObjVersioned →
  ObjectToTyped (typeConverter f)
    (internal_RemoveObjectManagedFields newObjVersioned) = Ok newObjTyped →
  ObjectToTyped (typeConverter f)
    (internal_RemoveObjectManagedFields liveObjVersioned) = Ok liveObjTyped →
  Updater_Update (updater f) liveObjTyped newObjTyped
    (GroupVersion_String (groupVersion f)) (Fields managed) manager
    = MergeFailed err →
  Update f liveObj newObj manager now =
    Returns (None, Some (fmt_Errorf
      ("failed to update ManagedFields: "
       +:+ match err with
           | MergeConflicts conflicts => Conflicts_Error conflicts
           | MergeFailure msg => msg
           end))).
Proof.
  intros Ha Hd Hnv Hlv Hnt Hlt Hup. unfold Update.
  rewrite (Update_managed_decoded _ _ _ _ _ u managed Ha Hd).
  rewrite Hnv, Hlv, Hnt, Hlt, Hup. by destruct err.
Qed.

(** X7: when the merge engine gives the acting manager no set, or a set of
    bookkeeping paths only, [Update] builds no identity and writes no time:
    the ledger to encode is the one of the engine without the entry of the
    manager, with the times that were decoded. *)
Theorem Update_nothing_owned f liveObj newObj manager now u managed
    newObjVersioned liveObjVersioned newObjTyped liveObjTyped merged fields :
  meta_Accessor newObj = Ok u →
  Update_decode liveObj newObj = Ok managed →
  toVersioned f newObj = Ok newObjVersioned →
  toVersioned f liveObj = Ok liveObjVersioned →
  ObjectToTyped (typeConverter f)
    (internal_RemoveObjectManagedFields newObjVersioned) = Ok newObjTyped →
  ObjectToTyped (typeConverter f)
    (internal_RemoveObjectManagedFields liveObjVersioned) = Ok liveObjTyped →
  Updater_Update (updater f) liveObjTyped newObjTyped
    (GroupVersion_String (groupVersion f)) (Fields managed) manager
    = Merged (merged, fields) →
  fields !! manager = None ∨
  (∃ vs, fields !! manager = Some (Some vs) ∧ Set' vs ⊆ stripSet) →
  Update f liveObj newObj manager now =
    Returns (Update_encode newObj
               {| Fields := delete manager fields;
                  Times := Times managed |}).
Proof.
  intros Ha Hd Hnv Hlv Hnt Hlt Hup Hnone. unfold Update.
  rewrite (Update_managed_decoded _ _ _ _ _ u managed Ha Hd).
  rewrite Hnv, Hlv, Hnt, Hlt, Hup. unfold assign_stripFields.
  destruct Hnone as [Hnone | (vs & Hvs & Hsub)].
  - rewrite (stripFields_absent _ _ Hnone). cbn [Fields Times].
    rewrite Hnone. by rewrite delete_id.
  - assert (Hd' : Set' vs ∖ stripSet = ∅).
    { apply set_eq. intros p. rewrite elem_of_difference, elem_of_empty.
      specialize (Hsub p). tauto. }
    rewrite (stripFields_emptied _ _ vs Hvs Hd'). cbn [Fields Times].
    by rewrite lookup_delete_eq.
Qed.

(** X8: [Update] returns an object or an error, never both and never
    neither. *)
Theorem Update_object_xor_error f liveObj newObj manager now o e :
  Update f liveObj newObj manager now = Returns (o, e) →
  (is_Some o ∧ e = None) ∨ (o = None ∧ is_Some e).
Proof.
  unfold Update.
  destruct (Update_managed f liveObj newObj manager now)
    as [[r | managed'] |] eqn:HU; [| | done].
  - intros ?; simplify_eq.
    destruct (Update_managed_inl _ _ _ _ _ _ HU) as [? | [err ?]];
      simplify_eq; [left | right]; eauto.
  - unfold Update_encode.
    destruct (internal_EncodeObjectManagedFields _ _);
      intros ?; simplify_eq; [left | right]; eauto.
Qed.

(** X9: the object that [Update] returns is the incoming object, as it is
    or with a ledger encoded into it; it is never the live object nor a
    converted object. *)
Theorem Update_returns_incoming f liveObj newObj manager now o e :
  Update f liveObj newObj manager now = Returns (Some o, e) →
  o = newObj ∨
  ∃ managed', internal_EncodeObjectManagedFields newObj managed' = Ok o.
Proof.
  unfold Update.
  destruct (Update_managed f liveObj newObj manager now)
    as [[r | managed'] |] eqn:HU; [| | done].
  - intros ?; simplify_eq.
    destruct (Update_managed_inl _ _ _ _ _ _ HU) as [? | [err ?]];
      simplify_eq. by left.
  - unfold Update_encode.
    destruct (internal_EncodeObjectManagedFields _ _) eqn:He;
      intros ?; simplify_eq. right. by exists managed'.
Qed.

(** X10: when no ledger that the merge engine returns for this call holds
    nil, [Update] does not panic, and the ledger it encodes holds no nil
    either. *)
Theorem Update_without_nil f liveObj newObj manager now :
  (∀ managed liveObjTyped newObjTyped merged fields,
     Update_decode liveObj newObj = Ok managed →
     Updater_Update (updater f) liveObjTyped newObjTyped
       (GroupVersion_String (groupVersion f)) (Fields managed) manager
       = Merged (merged, fields) →
     ∀ k, fields !! k ≠ Some None) →
  (∃ r, Update f liveObj newObj manager now = Returns r) ∧
  ∀ managed',
    Update_managed f liveObj newObj manager now = Returns (inr managed') →
    ∀ k, Fields managed' !! k ≠ Some None.
Proof.
  intros Hengine. split.
  - unfold Update.
    destruct (Update_managed f liveObj newObj manager now)
      as [[r | managed'] | msg] eqn:HU; [by eexists | by eexists |].
    exfalso.
    destruct (Update_managed_Panics _ _ _ _ _ _ HU)
      as (managed & lt & nt & merged & fields & Hd & Hup & Hnil).
    destruct Hnil as [Hnil | (ident & _ & _ & Hnil)];
      by apply (Hengine _ _ _ _ _ Hd Hup) in Hnil.
  - intros managed' HU k Hk.
    destruct (Update_managed_inr _ _ _ _ _ _ HU)
      as (managed & lt & nt & merged & fields & stripped & Hd & Hup & Hs
          & Hcases).
    assert (Hstripped : ∀ j, stripped !! j ≠ Some None).
    { intros j Hj. destruct (decide (j = manager)) as [-> | Hne].
      - by destruct (stripFields_Returns_same _ _ _ _ Hs Hj)
          as (vs & _ & _ & ?).
      - rewrite (stripFields_Returns_other _ _ _ _ Hs Hne) in Hj.
        by apply (Hengine _ _ _ _ _ Hd Hup) in Hj. }
    destruct Hcases as [[_ ->] | [(v & ident & Hv & _ & _ & ->)
                                 | (vs & previous & ident & _ & _ & _ & ->)]];
      cbn [Fields] in Hk.
    + by apply Hstripped in Hk.
    + apply lookup_insert_Some in Hk as [[_ ->] | [_ Hk]].
      * by apply Hstripped in Hv.
      * apply lookup_delete_Some in Hk as [_ Hk]. by apply Hstripped in Hk.
    + apply lookup_insert_Some in Hk as [[_ ?] | [_ Hk]]; [done |].
      apply lookup_delete_Some in Hk as [_ Hk]. by apply Hstripped in Hk.
Qed.

(** X11: [Update] changes the time of at most one identity, the one built
    for the Update operation of the manager, and the new time is [now]. *)
Theorem Update_times_frame f liveObj newObj manager now managed' :
  Update_managed f liveObj newObj manager now = Returns (inr managed') →
  ∃ managed,
    Update_decode liveObj newObj = Ok managed ∧
    ∀ k, Times managed' !! k = Times managed !! k ∨
         (buildManagerInfo f manager ManagedFieldsOperationUpdate = Ok k ∧
          Times managed' !! k = Some now).
Proof.
  intros HU.
  destruct (Update_managed_inr _ _ _ _ _ _ HU)
    as (managed & lt & nt & merged & fields & stripped & Hd & _ & _
        & Hcases).
  exists managed. split; [done |]. intros k.
  destruct Hcases as [[_ ->] | [(v & ident & _ & Hid & _ & ->)
                               | (vs & previous & ident & _ & Hid & _ & ->)]];
    cbn [Times]; [by left | |];
    (destruct (decide (ident = k)) as [<- | Hne];
     [right; split; [done | apply lookup_insert_eq]
     | left; by rewrite lookup_insert_ne]).
Qed.

(** X12: when, in the ledger that the merge engine returns, the sets of the
    keys other than the acting manager hold no path of [stripSet], no set of
    the ledger that [Update] encodes holds one. *)
Theorem Update_ledger_clean f liveObj newObj manager now :
  (∀ managed liveObjTyped newObjTyped merged fields,
     Update_decode liveObj newObj = Ok managed →
     Updater_Update (updater f) liveObjTyped newObjTyped
       (GroupVersion_String (groupVersion f)) (Fields managed) manager
       = Merged (merged, fields) →
     ∀ k vs, k ≠ manager → fields !! k = Some (Some vs) →
             ∀ p, p ∈ stripSet → p ∉ Set' vs) →
  ∀ managed',
    Update_managed f liveObj newObj manager now = Returns (inr managed') →
    ∀ k vs, Fields managed' !! k = Some (Some vs) →
            ∀ p, p ∈ stripSet → p ∉ Set' vs.
Proof.
  intros Hengine managed' HU k vs Hk p Hp.
  destruct (Update_managed_inr _ _ _ _ _ _ HU)
    as (managed & lt & nt & merged & fields & stripped & Hd & Hup & Hs
        & Hcases).
  assert (Hother : ∀ j ws, j ≠ manager → stripped !! j = Some (Some ws) →
                           p ∉ Set' ws).
  { intros j ws Hne Hj.
    rewrite (stripFields_Returns_other _ _ _ _ Hs Hne) in Hj.
    by apply (Hengine _ _ _ _ _ Hd Hup j ws Hne Hj p). }
  assert (Hsame : ∀ ws, stripped !! manager = Some (Some ws) → p ∉ Set' ws).
  { intros ws Hm.
    destruct (stripFields_Returns_same _ _ _ _ Hs Hm)
      as (vs0 & _ & _ & Heq).
    injection Heq as ->. cbn. by apply difference_stripSet_clean. }
  destruct Hcases as [[Hnone ->] | [(v & ident & Hv & _ & _ & ->)
                                   | (vs' & previous & ident & Hv & _ & Hprev
                                      & ->)]];
    cbn [Fields] in Hk.
  - destruct (decide (k = manager)) as [-> | Hne]; [congruence |].
    by apply (Hother k vs).
  - apply lookup_insert_Some in Hk as [[_ ->] | [_ Hk]].
    + by apply Hsame.
    + apply lookup_delete_Some in Hk as [Hne Hk]. by apply (Hother k vs).
  - apply lookup_insert_Some in Hk as [[_ Heq] | [_ Hk]].
    + injection Heq as <-. cbn. rewrite elem_of_union.
      apply lookup_delete_Some in Hprev as [Hne Hprev].
      intros [Hin | Hin].
      * by apply (Hsame vs').
      * by apply (Hother ident previous).
    + apply lookup_delete_Some in Hk as [Hne Hk]. by apply (Hother k vs).
Qed.

End UpdateFurther.

(** ** Apply, further *)

Section ApplyFurther.
Context `{C : Collaborators}.
Implicit Types (f : fieldManager) (liveObj : Object) (patch : list Byte.byte).
Implicit Types (managerName ident : string) (force : bool) (now : Time).

(** The one way in which [Apply] gets to a ledger to encode. *)
Lemma Apply_managed_inr f liveObj patch managerName force now
    newObjTyped managed' :
  Apply_managed f liveObj patch managerName force now
    = Returns (inr (newObjTyped, managed')) →
  ∃ managed patchObj liveObjTyped patchObjTyped ident managedFields stripped,
    internal_DecodeObjectManagedFields liveObj = Ok managed ∧
    yaml_Unmarshal patch = Ok patchObj ∧
    GetManagedFields patchObj = None ∧
    GetAPIVersion patchObj = GroupVersion_String (groupVersion f) ∧
    buildManagerInfo f managerName ManagedFieldsOperationApply = Ok ident ∧
    Updater_Apply (updater f) liveObjTyped patchObjTyped
      (GroupVersion_String (groupVersion f)) (Fields managed) ident force
      = Merged (newObjTyped, managedFields) ∧
    stripFields managedFields ident = Returns stripped ∧
    managed' = {| Fields := stripped;
                  Times := <[ident := now]> (Times managed) |}.
Proof.
  unfold Apply_managed, assign_stripFields.
  destruct (meta_Accessor liveObj); [| done].
  destruct (internal_DecodeObjectManagedFields liveObj) as [managed |];
    [| done].
  destruct (yaml_Unmarshal patch) as [patchObj |]; [| done].
  destruct (GetManagedFields patchObj) eqn:Hmf; [done |].
  destruct (String.eqb_spec (GetAPIVersion patchObj)
              (GroupVersion_String (groupVersion f))) as [Hv | Hv];
    cbn [negb]; [| done].
  destruct (toVersioned f liveObj) as [lv |]; [| done].
  destruct (ObjectToTyped _ _) as [pt |]; [| done].
  destruct (ObjectToTyped _ _) as [lt |]; [| done].
  destruct (buildManagerInfo _ _ _) as [ident |]; [| done].
  destruct (Updater_Apply _ _ _ _ _ _ _) as [[t managedFields] | err] eqn:Hm;
    [| by destruct err].
  destruct (stripFields managedFields ident) as [stripped |] eqn:Hs; [| done].
  cbn [Fields Times]. intros H. injection H as <- <-.
  by exists managed, patchObj, lt, pt, ident, managedFields, stripped.
Qed.

(** Before it has a ledger to encode, [Apply] returns only errors. *)
Lemma Apply_managed_inl f liveObj patch managerName force now r :
  Apply_managed f liveObj patch managerName force now = Returns (inl r) →
  ∃ e, r = (None, Some e).
Proof.
  unfold Apply_managed.
  repeat case_match; intros ?; simplify_eq; eauto.
Qed.

(** X13: [Apply] returns an object or an error, never both and never
    neither. *)
Theorem Apply_object_xor_error f liveObj patch managerName force now o e :
  Apply f liveObj patch managerName force now = Returns (o, e) →
  (is_Some o ∧ e = None) ∨ (o = None ∧ is_Some e).
Proof.
  unfold Apply.
  destruct (Apply_managed f liveObj patch managerName force now)
    as [[r | [t managed']] |] eqn:HA; [| | done].
  - intros ?; simplify_eq.
    destruct (Apply_managed_inl _ _ _ _ _ _ _ HA) as [err ?]; simplify_eq.
    right. eauto.
  - unfold Apply_encode.
    repeat case_match; intros ?; simplify_eq; [left | right ..]; eauto.
Qed.

(** X14: [Apply] never passes an object through: when it returns an
    object, the patch was parsed and accepted, the identity was built and
    the merge engine's Apply succeeded for that identity. *)
Theorem Apply_requires_merge f liveObj patch managerName force now o e :
  Apply f liveObj patch managerName force now = Returns (Some o, e) →
  ∃ managed patchObj liveObjTyped patchObjTyped ident merged managedFields,
    internal_DecodeObjectManagedFields liveObj = Ok managed ∧
    yaml_Unmarshal patch = Ok patchObj ∧
    GetManagedFields patchObj = None ∧
    GetAPIVersion patchObj = GroupVersion_String (groupVersion f) ∧
    buildManagerInfo f managerName ManagedFieldsOperationApply = Ok ident ∧
    Updater_Apply (updater f) liveObjTyped patchObjTyped
      (GroupVersion_String (groupVersion f)) (Fields managed) ident force
      = Merged (merged, managedFields).
Proof.
  unfold Apply.
  destruct (Apply_managed f liveObj patch managerName force now)
    as [[r | [t managed']] |] eqn:HA; [| | done].
  - intros ?; simplify_eq.
    by destruct (Apply_managed_inl _ _ _ _ _ _ _ HA) as [err ?].
  - intros _.
    destruct (Apply_managed_inr _ _ _ _ _ _ _ _ HA)
      as (managed & patchObj & lt & pt & ident & mf & stripped
          & ? & ? & ? & ? & ? & ? & _).
    by exists managed, patchObj, lt, pt, ident, t, mf.
Qed.

(** X15: the object that [Apply] returns is a conversion to the hub
    version of an object that went through the defaulter. *)
Theorem Apply_returns_hub f liveObj patch managerName force now o e :
  Apply f liveObj patch managerName force now = Returns (Some o, e) →
  ∃ newObjVersioned,
    ConvertToVersion (objectConverter f)
      (Default (objectDefaulter f) newObjVersioned) (hubVersion f) = Ok o.
Proof.
  unfold Apply.
  destruct (Apply_managed f liveObj patch managerName force now)
    as [[r | [t managed']] |] eqn:HA; [| | done].
  - intros ?; simplify_eq.
    by destruct (Apply_managed_inl _ _ _ _ _ _ _ HA) as [err ?].
  - unfold Apply_encode, toUnversioned.
    repeat case_match; intros ?; simplify_eq. eauto.
Qed.

(** X16: for a live object without accessor, or with a ledger that does
    not decode, [Apply] returns the error of that step whatever the patch,
    the manager, the force flag and the time are: the patch is not looked
    at. *)
Theorem Apply_live_object_first f liveObj patch managerName force now :
  (∀ err, meta_Accessor liveObj = Err err →
     Apply f liveObj patch managerName force now =
       Returns (None, Some (fmt_Errorf
         ("couldn't get accessor: " +:+ Error err)))) ∧
  (∀ u err,
     meta_Accessor liveObj = Ok u →
     internal_DecodeObjectManagedFields liveObj = Err err →
     Apply f liveObj patch managerName force now =
       Returns (None, Some (fmt_Errorf
         ("failed to decode managed fields: " +:+ Error err)))).
Proof.
  split.
  - intros err Ha. unfold Apply, Apply_managed. by rewrite Ha.
  - intros u err Ha Hd. unfold Apply, Apply_managed. by rewrite Ha, Hd.
Qed.

(** The identity of the empty name is that of the name unknown. *)
Lemma buildManagerInfo_empty f operation :
  buildManagerInfo f "" operation = buildManagerInfo f "unknown" operation.
Proof. reflexivity. Qed.

(** X17: [Apply] for the empty manager name is [Apply] for the name
    unknown. *)
Theorem Apply_empty_name f liveObj patch force now :
  Apply f liveObj patch "" force now
  = Apply f liveObj patch "unknown" force now.
Proof.
  unfold Apply, Apply_managed. by rewrite buildManagerInfo_empty.
Qed.

(** X18: [Apply] panics only when the merge engine succeeds and returns a
    ledger that holds nil under the identity of the call. *)
Theorem Apply_panics_only_on_nil f liveObj patch managerName force now msg :
  Apply f liveObj patch managerName force now = Panics msg →
  ∃ managed liveObjTyped patchObjTyped ident merged managedFields,
    internal_DecodeObjectManagedFields liveObj = Ok managed ∧
    buildManagerInfo f managerName ManagedFieldsOperationApply = Ok ident ∧
    Updater_Apply (updater f) liveObjTyped patchObjTyped
      (GroupVersion_String (groupVersion f)) (Fields managed) ident force
      = Merged (merged, managedFields) ∧
    managedFields !! ident = Some None ∧
    msg = "Found unexpected nil manager which should never happen: "
          +:+ ident.
Proof.
  unfold Apply.
  destruct (Apply_managed f liveObj patch managerName force now)
    as [[r | [t managed']] |] eqn:HA; [done | done |].
  intros ?; simplify_eq. revert HA.
  unfold Apply_managed, assign_stripFields.
  destruct (meta_Accessor liveObj); [| done].
  destruct (internal_DecodeObjectManagedFields liveObj) as [managed |];
    [| done].
  destruct (yaml_Unmarshal patch) as [patchObj |]; [| done].
  destruct (GetManagedFields patchObj); [done |].
  destruct (negb _); [done |].
  destruct (toVersioned f liveObj) as [lv |]; [| done].
  destruct (ObjectToTyped _ _) as [pt |]; [| done].
  destruct (ObjectToTyped _ _) as [lt |]; [| done].
  destruct (buildManagerInfo _ _ _) as [ident |]; [| done].
  destruct (Updater_Apply _ _ _ _ _ _ _) as [[t managedFields] | err] eqn:Hm;
    [| by destruct err].
  unfold stripFields.
  destruct (managedFields !! ident) as [[vs |] |] eqn:Hl; [| | done].
  - by destruct (Empty _).
  - intros ?; simplify_eq.
    by exists managed, lt, pt, ident, t, managedFields.
Qed.

(** X19: in the ledger that [Apply] encodes, the entries of the keys other
    than the identity of the call are those of the merge engine, the times
    of the other keys are those decoded from the live object, and the time
    of the identity is [now]. *)
Theorem Apply_ledger_frame f liveObj patch managerName force now
    newObjTyped managed' :
  Apply_managed f liveObj patch managerName force now
    = Returns (inr (newObjTyped, managed')) →
  ∃ managed liveObjTyped patchObjTyped ident managedFields,
    internal_DecodeObjectManagedFields liveObj = Ok managed ∧
    buildManagerInfo f managerName ManagedFieldsOperationApply = Ok ident ∧
    Updater_Apply (updater f) liveObjTyped patchObjTyped
      (GroupVersion_String (groupVersion f)) (Fields managed) ident force
      = Merged (newObjTyped, managedFields) ∧
    (∀ k, k ≠ ident → Fields managed' !! k = managedFields !! k) ∧
    (∀ k, k ≠ ident → Times managed' !! k = Times managed !! k) ∧
    Times managed' !! ident = Some now.
Proof.
  intros HA.
  destruct (Apply_managed_inr _ _ _ _ _ _ _ _ HA)
    as (managed & patchObj & lt & pt & ident & mf & stripped
        & Hd & _ & _ & _ & Hid & Hm & Hs & ->).
  exists managed, lt, pt, ident, mf. cbn [Fields Times].
  split; [done |]. split; [done |]. split; [done |].
  split; [| split].
  - intros k Hne. by apply (stripFields_Returns_other _ _ _ _ Hs).
  - intros k Hne. by rewrite lookup_insert_ne.
  - apply lookup_insert_eq.
Qed.

(** X20: in the ledger that [Apply] encodes, the identity of the call
    either has no entry, or has a non-nil set that is not empty and holds
    no path of [stripSet]. *)
Theorem Apply_identity_clean f liveObj patch managerName force now
    newObjTyped managed' :
  Apply_managed f liveObj patch managerName force now
    = Returns (inr (newObjTyped, managed')) →
  ∃ ident,
    buildManagerInfo f managerName ManagedFieldsOperationApply = Ok ident ∧
    (Fields managed' !! ident = None ∨
     ∃ vs, Fields managed' !! ident = Some (Some vs) ∧
           Set' vs ≠ ∅ ∧ ∀ p, p ∈ stripSet → p ∉ Set' vs).
Proof.
  intros HA.
  destruct (Apply_managed_inr _ _ _ _ _ _ _ _ HA)
    as (managed & patchObj & lt & pt & ident & mf & stripped
        & _ & _ & _ & _ & Hid & _ & Hs & ->).
  exists ident. split; [done |]. cbn [Fields].
  destruct (stripped !! ident) as [v |] eqn:Hv; [| by left].
  destruct (stripFields_Returns_same _ _ _ _ Hs Hv) as (vs & _ & Hne & ->).
  right. eexists. split; [done |]. cbn. split; [done |].
  intros p. apply difference_stripSet_clean.
Qed.

End ApplyFurther.

(** ** Construction, further *)

Section ConstructionFurther.
Context `{K : Construction}.

(** X21: [NewFieldManager] fails exactly when the type converter cannot be
    made from the models, with the error of that step; [NewCRDFieldManager]
    fails exactly when there are models and the type converter cannot be
    made from them, so it never fails without models. *)
Theorem construction_failure (models : option Models)
    (objectConverter : ObjectConvertor) (objectDefaulter : ObjectDefaulter)
    (gv hub : GroupVersion) (preserveUnknownFields : bool) (e : error) :
  (NewFieldManager models objectConverter objectDefaulter gv hub = Err e ↔
   internal_NewTypeConverter models false = Err e) ∧
  (NewCRDFieldManager models objectConverter objectDefaulter gv hub
     preserveUnknownFields = Err e ↔
   ∃ m, models = Some m ∧
        internal_NewTypeConverter models preserveUnknownFields = Err e).
Proof.
  unfold NewFieldManager, NewCRDFieldManager. split.
  - destruct (internal_NewTypeConverter models false); split; congruence.
  - destruct models as [m |].
    + destruct (internal_NewTypeConverter (Some m) preserveUnknownFields)
        eqn:Hc; split.
      * done.
      * by intros (? & _ & ?).
      * intros [= <-]. by exists m.
      * intros (? & _ & ?). congruence.
    + split; [done | by intros (? & ? & _)].
Qed.

(** X22: a manager made by either constructor has the working version, the
    hub version, the object converter and the defaulter it was given; its
    type converter is the one made from the models, or the deduced one when
    the CRD constructor has no models; and the converter of its merge engine
    is made for the hub version, not for the working version. *)
Theorem construction_fields (models : option Models)
    (objectConverter' : ObjectConvertor) (objectDefaulter' : ObjectDefaulter)
    (gv hub : GroupVersion) (preserveUnknownFields : bool)
    (f : fieldManager) :
  NewFieldManager models objectConverter' objectDefaulter' gv hub = Ok f ∨
  NewCRDFieldManager models objectConverter' objectDefaulter' gv hub
    preserveUnknownFields = Ok f →
  groupVersion f = gv ∧ hubVersion f = hub ∧
  objectConverter f = objectConverter' ∧
  objectDefaulter f = objectDefaulter' ∧
  (NewFieldManager models objectConverter' objectDefaulter' gv hub = Ok f →
     internal_NewTypeConverter models false = Ok (typeConverter f) ∧
     updater f = merge_Updater
       (internal_NewVersionConverter (typeConverter f) objectConverter'
          hub)) ∧
  (NewCRDFieldManager models objectConverter' objectDefaulter' gv hub
     preserveUnknownFields = Ok f →
     (models = None → typeConverter f = internal_DeducedTypeConverter) ∧
     (models ≠ None →
        internal_NewTypeConverter models preserveUnknownFields
          = Ok (typeConverter f)) ∧
     updater f = merge_Updater
       (internal_NewCRDVersionConverter (typeConverter f) objectConverter'
          hub)).
Proof.
  intros Hmade.
  assert (Hnew :
    NewFieldManager models objectConverter' objectDefaulter' gv hub = Ok f →
    groupVersion f = gv ∧ hubVersion f = hub ∧
    objectConverter f = objectConverter' ∧
    objectDefaulter f = objectDefaulter' ∧
    internal_NewTypeConverter models false = Ok (typeConverter f) ∧
    updater f = merge_Updater
      (internal_NewVersionConverter (typeConverter f) objectConverter' hub)).
  { unfold NewFieldManager.
    destruct (internal_NewTypeConverter models false); [| done].
    by intros [= <-]. }
  assert (Hcrd :
    NewCRDFieldManager models objectConverter' objectDefaulter' gv hub
      preserveUnknownFields = Ok f →
    groupVersion f = gv ∧ hubVersion f = hub ∧
    objectConverter f = objectConverter' ∧
    objectDefaulter f = objectDefaulter' ∧
    (models = None → typeConverter f = internal_DeducedTypeConverter) ∧
    (models ≠ None →
       internal_NewTypeConverter models preserveUnknownFields
         = Ok (typeConverter f)) ∧
    updater f = merge_Updater
      (internal_NewCRDVersionConverter (typeConverter f) objectConverter'
         hub)).
  { unfold NewCRDFieldManager. destruct models as [m |].
    - destruct (internal_NewTypeConverter (Some m) preserveUnknownFields);
        [| done].
      by intros [= <-].
    - by intros [= <-]. }
  destruct Hmade as [H | H]; [pose proof (Hnew H) | pose proof (Hcrd H)];
    tauto.
Qed.

End ConstructionFurther.

(** * The further properties on concrete inputs *)

Import SampleConstruction.

Ltac run := vm_compute; reflexivity.

(** X1 on a ledger where ["m"] owns a spec path and [metadata.name]. *)
Lemma stripFields_absorbing_witness :
  ∃ vs',
    ({[ "m" := Some (NewVersionedSet {[ spec_path ]} "v1" true) ]}
       : ManagedFields) !! "m" = Some (Some vs') ∧
    Set' vs' ≠ ∅ ∧ name_path ∉ Set' vs'.
Proof.
  destruct (stripFields_absorbing
              {[ "m" := Some (NewVersionedSet {[ spec_path; name_path ]}
                                "v1" true) ]}
              {[ "m" := Some (NewVersionedSet {[ spec_path ]} "v1" true) ]}
              "m") as [Hnone | (vs' & Hl & Hne & Hclean)]; [run | |].
  - vm_compute in Hnone. discriminate.
  - exists vs'. split; [exact Hl |]. split; [exact Hne |].
    apply Hclean. by_evaluation.
Defined.

(** X2 on the same ledger. *)
Lemma stripFields_idempotent_witness :
  stripFields {[ "m" := Some (NewVersionedSet {[ spec_path ]} "v1" true) ]}
    "m"
  = Returns {[ "m" := Some (NewVersionedSet {[ spec_path ]} "v1" true) ]}.
Proof.
  apply (stripFields_idempotent
           {[ "m" := Some (NewVersionedSet {[ spec_path; name_path ]}
                             "v1" true) ]}).
  run.
Defined.

(** X3 on the same ledger. *)
Lemma stripFields_only_shrinks_witness :
  ∃ v,
    ({[ "m" := Some (NewVersionedSet {[ spec_path; name_path ]} "v1" true) ]}
       : ManagedFields) !! "m" = Some v ∧
    match Some (NewVersionedSet {[ spec_path ]} "v1" true), v with
    | Some vs', Some vs =>
        Set' vs' ⊆ Set' vs ∧ APIVersion' vs' = APIVersion' vs ∧
        Applied vs' = Applied vs
    | None, None => True
    | _, _ => False
    end.
Proof.
  apply (stripFields_only_shrinks
           {[ "m" := Some (NewVersionedSet {[ spec_path; name_path ]}
                             "v1" true) ]}
           {[ "m" := Some (NewVersionedSet {[ spec_path ]} "v1" true) ]}
           "m"); run.
Defined.

(** X4 on a ledger where ["m"] owns a spec path only. *)
Lemma stripFields_clean_witness :
  stripFields {[ "m" := Some (NewVersionedSet {[ spec_path ]} "v1" true) ]}
    "m"
  = Returns {[ "m" := Some (NewVersionedSet {[ spec_path ]} "v1" true) ]}.
Proof.
  apply (stripFields_clean _ _ (NewVersionedSet {[ spec_path ]} "v1" true)).
  - run.
  - by_evaluation.
  - intros p Hp Hin. cbn in Hin. apply elem_of_singleton in Hin as ->.
    revert Hp. by_evaluation.
Defined.

(** X5 on an incoming object that cannot be made a typed object. *)
Lemma Update_typed_failure_witness :
  Update fm plain untypable "kubectl" 7%Z = Returns (Some untypable, None).
Proof.
  apply (Update_typed_failure fm plain untypable "kubectl" 7%Z tt no_ledger
           untypable plain); [run .. |].
  left. exists (other_error "no type found"). run.
Defined.

(** X6 with an engine that reports a conflict on Update. *)
Lemma Update_merge_failure_witness :
  Update (manager_with refusing) plain plain "kubectl" 7%Z =
    Returns (None, Some (fmt_Errorf
      ("failed to update ManagedFields: " +:+ "conflict"))).
Proof.
  apply (Update_merge_failure (manager_with refusing) plain plain "kubectl"
           7%Z tt no_ledger plain plain (with_ledger plain no_ledger)
           (with_ledger plain no_ledger)
           (MergeConflicts [("other", spec_path)])); run.
Defined.

(** X7 on an incoming object whose content sets only [metadata.name]. *)
Lemma Update_nothing_owned_witness :
  Update fm plain named "kubectl" 7%Z
  = Returns (Some (with_ledger named no_ledger), None).
Proof.
  rewrite (Update_nothing_owned fm plain named "kubectl" 7%Z tt no_ledger
             named plain (with_ledger named no_ledger)
             (with_ledger plain no_ledger) (with_ledger named no_ledger)
             {[ "kubectl" := Some (NewVersionedSet {[ name_path ]}
                                     "v1" false) ]});
    [run | run .. |].
  right. exists (NewVersionedSet {[ name_path ]} "v1" false).
  split; [run | by_evaluation].
Defined.

(** X8 on an update that records a spec path. *)
Lemma Update_object_xor_error_witness :
  (is_Some (Some (with_ledger plain
      {| Fields :=
           {[ kubectl_update :=
                Some (NewVersionedSet {[ spec_path ]} "v1" false) ]};
         Times := {[ kubectl_update := 7%Z ]} |})) ∧
   (None : option error) = None) ∨
  (Some (with_ledger plain
      {| Fields :=
           {[ kubectl_update :=
                Some (NewVersionedSet {[ spec_path ]} "v1" false) ]};
         Times := {[ kubectl_update := 7%Z ]} |}) = None ∧
   is_Some (None : option error)).
Proof.
  apply (Update_object_xor_error fm plain plain "kubectl" 7%Z). run.
Defined.

(** X9 on the same update. *)
Lemma Update_returns_incoming_witness :
  with_ledger plain
    {| Fields :=
         {[ kubectl_update :=
              Some (NewVersionedSet {[ spec_path ]} "v1" false) ]};
       Times := {[ kubectl_update := 7%Z ]} |} = plain ∨
  ∃ managed',
    internal_EncodeObjectManagedFields plain managed' =
      Ok (with_ledger plain
            {| Fields :=
                 {[ kubectl_update :=
                      Some (NewVersionedSet {[ spec_path ]} "v1" false) ]};
               Times := {[ kubectl_update := 7%Z ]} |}).
Proof.
  apply (Update_returns_incoming fm plain plain "kubectl" 7%Z _ None). run.
Defined.

(** What the sample engine returns for an update by kubectl of [plain]. *)
Lemma sample_update_fields managed liveObjTyped newObjTyped merged fields :
  Update_decode plain plain = Ok managed →
  Updater_Update (updater fm) liveObjTyped newObjTyped
    (GroupVersion_String (groupVersion fm)) (Fields managed) "kubectl"
    = Merged (merged, fields) →
  fields = {[ "kubectl" :=
                Some (NewVersionedSet (owned newObjTyped) "v1" false) ]}.
Proof.
  intros Hd Hup.
  assert (Hplain : Update_decode plain plain = Ok no_ledger) by run.
  assert (managed = no_ledger) as -> by congruence.
  cbv [fm manager_with updater engine Updater_Update] in Hup.
  by injection Hup as _ <-.
Qed.

(** X10 on an update by kubectl of [plain]. *)
Lemma Update_without_nil_witness :
  ∃ r, Update fm plain plain "kubectl" 7%Z = Returns r.
Proof.
  apply (Update_without_nil fm plain plain "kubectl" 7%Z).
  intros managed lt nt merged fields Hd Hup k Hk.
  rewrite (sample_update_fields _ _ _ _ _ Hd Hup) in Hk.
  by apply lookup_singleton_Some in Hk as [_ ?].
Defined.

(** X11 on an update by kubectl of [tracked], whose ledger has a time for
    kubectl's Update identity. *)
Lemma Update_times_frame_witness :
  ∃ managed,
    Update_decode plain tracked = Ok managed ∧
    ∀ k,
      ({[ kubectl_update := 7%Z ]} : gmap string Time) !! k
        = Times managed !! k ∨
      (buildManagerInfo fm "kubectl" ManagedFieldsOperationUpdate = Ok k ∧
       ({[ kubectl_update := 7%Z ]} : gmap string Time) !! k = Some 7%Z).
Proof.
  assert (HU : Update_managed fm plain tracked "kubectl" 7%Z =
            Returns (inr
              {| Fields :=
                   {[ kubectl_update :=
                        Some (NewVersionedSet {[ spec_path; status_path ]}
                                "v1" false) ]};
                 Times := {[ kubectl_update := 7%Z ]} |})) by run.
  exact (Update_times_frame fm plain tracked "kubectl" 7%Z _ HU).
Defined.

(** X12 on an update by kubectl of [plain]. *)
Lemma Update_ledger_clean_witness :
  name_path ∉ ({[ spec_path ]} : Set_).
Proof.
  assert (HU : Update_managed fm plain plain "kubectl" 7%Z =
            Returns (inr
              {| Fields :=
                   {[ kubectl_update :=
                        Some (NewVersionedSet {[ spec_path ]} "v1" false) ]};
                 Times := {[ kubectl_update := 7%Z ]} |})) by run.
  assert (Hp : name_path ∈ stripSet) by by_evaluation.
  refine (Update_ledger_clean fm plain plain "kubectl" 7%Z _ _ HU
            kubectl_update (NewVersionedSet {[ spec_path ]} "v1" false)
            _ name_path Hp); [| run].
  intros managed lt nt merged fields Hd Hup k vs Hne Hk.
  rewrite (sample_update_fields _ _ _ _ _ Hd Hup) in Hk.
  apply lookup_singleton_Some in Hk as [? _]. congruence.
Defined.

(** X13 on an apply by kubectl of a patch at version v1. *)
Lemma Apply_object_xor_error_witness :
  (is_Some (Some (with_ledger (document_object doc_v1)
      {| Fields :=
           {[ kubectl_apply :=
                Some (NewVersionedSet {[ spec_path ]} "v1" true) ]};
         Times := {[ kubectl_apply := 7%Z ]} |})) ∧
   (None : option error) = None) ∨
  (Some (with_ledger (document_object doc_v1)
      {| Fields :=
           {[ kubectl_apply :=
                Some (NewVersionedSet {[ spec_path ]} "v1" true) ]};
         Times := {[ kubectl_apply := 7%Z ]} |}) = None ∧
   is_Some (None : option error)).
Proof.
  apply (Apply_object_xor_error fm plain [Byte.x01] "kubectl" false 7%Z).
  run.
Defined.

(** X14 on the same apply. *)
Lemma Apply_requires_merge_witness :
  ∃ managed patchObj liveObjTyped patchObjTyped ident merged managedFields,
    internal_DecodeObjectManagedFields plain = Ok managed ∧
    yaml_Unmarshal [Byte.x01] = Ok patchObj ∧
    GetManagedFields patchObj = None ∧
    GetAPIVersion patchObj = GroupVersion_String (groupVersion fm) ∧
    buildManagerInfo fm "kubectl" ManagedFieldsOperationApply = Ok ident ∧
    Updater_Apply (updater fm) liveObjTyped patchObjTyped
      (GroupVersion_String (groupVersion fm)) (Fields managed) ident false
      = Merged (merged, managedFields).
Proof.
  apply (Apply_requires_merge fm plain [Byte.x01] "kubectl" false 7%Z
           (with_ledger (document_object doc_v1)
              {| Fields :=
                   {[ kubectl_apply :=
                        Some (NewVersionedSet {[ spec_path ]} "v1" true) ]};
                 Times := {[ kubectl_apply := 7%Z ]} |}) None).
  run.
Defined.

(** X15 on the same apply. *)
Lemma Apply_returns_hub_witness :
  ∃ newObjVersioned,
    ConvertToVersion (objectConverter fm)
      (Default (objectDefaulter fm) newObjVersioned) (hubVersion fm)
    = Ok (with_ledger (document_object doc_v1)
            {| Fields :=
                 {[ kubectl_apply :=
                      Some (NewVersionedSet {[ spec_path ]} "v1" true) ]};
               Times := {[ kubectl_apply := 7%Z ]} |}).
Proof.
  apply (Apply_returns_hub fm plain [Byte.x01] "kubectl" false 7%Z _ None).
  run.
Defined.

(** X16 on a live object without accessor and on one whose ledger does not
    decode, with a patch that would be accepted. *)
Lemma Apply_live_object_first_witness :
  Apply fm bare [Byte.x01] "kubectl" false 7%Z =
    Returns (None, Some (fmt_Errorf
      ("couldn't get accessor: "
       +:+ "object does not implement the Object interfaces"))) ∧
  Apply fm undecodable [Byte.x01] "kubectl" false 7%Z =
    Returns (None, Some (fmt_Errorf
      ("failed to decode managed fields: " +:+ "invalid managed fields"))).
Proof.
  split.
  - apply (proj1 (Apply_live_object_first fm bare [Byte.x01] "kubectl" false
                    7%Z)
             (other_error "object does not implement the Object interfaces")).
    run.
  - apply (proj2 (Apply_live_object_first fm undecodable [Byte.x01] "kubectl"
                    false 7%Z)
             tt (other_error "invalid managed fields")); run.
Defined.

(** X18 with an engine that records nil for the acting manager. *)
Lemma Apply_panics_only_on_nil_witness :
  ∃ managed liveObjTyped patchObjTyped ident merged managedFields,
    internal_DecodeObjectManagedFields plain = Ok managed ∧
    buildManagerInfo (manager_with forgetful) "kubectl"
      ManagedFieldsOperationApply = Ok ident ∧
    Updater_Apply (updater (manager_with forgetful)) liveObjTyped
      patchObjTyped
      (GroupVersion_String (groupVersion (manager_with forgetful)))
      (Fields managed) ident false
      = Merged (merged, managedFields) ∧
    managedFields !! ident = Some None ∧
    "Found unexpected nil manager which should never happen: kubectl/Apply/v1"
    = "Found unexpected nil manager which should never happen: " +:+ ident.
Proof.
  apply (Apply_panics_only_on_nil (manager_with forgetful) plain [Byte.x01]
           "kubectl" false 7%Z).
  run.
Defined.

(** X19 on an apply by kubectl, on a live object whose ledger has an entry
    and a time for kubectl's Update identity. *)
Lemma Apply_ledger_frame_witness :
  ∃ managed liveObjTyped patchObjTyped ident managedFields,
    internal_DecodeObjectManagedFields tracked = Ok managed ∧
    buildManagerInfo fm "kubectl" ManagedFieldsOperationApply = Ok ident ∧
    Updater_Apply (updater fm) liveObjTyped patchObjTyped
      (GroupVersion_String (groupVersion fm)) (Fields managed) ident false
      = Merged (document_object doc_v1, managedFields) ∧
    (∀ k, k ≠ ident →
       ({[ kubectl_update :=
             Some (NewVersionedSet {[ status_path ]} "v1" false);
           kubectl_apply :=
             Some (NewVersionedSet {[ spec_path ]} "v1" true) ]}
          : ManagedFields) !! k = managedFields !! k) ∧
    (∀ k, k ≠ ident →
       ({[ kubectl_update := 3%Z; kubectl_apply := 7%Z ]}
          : gmap string Time) !! k = Times managed !! k) ∧
    ({[ kubectl_update := 3%Z; kubectl_apply := 7%Z ]}
       : gmap string Time) !! ident = Some 7%Z.
Proof.
  assert (HA : Apply_managed fm tracked [Byte.x01] "kubectl" false 7%Z =
            Returns (inr (document_object doc_v1,
              {| Fields :=
                   {[ kubectl_update :=
                        Some (NewVersionedSet {[ status_path ]} "v1" false);
                      kubectl_apply :=
                        Some (NewVersionedSet {[ spec_path ]} "v1" true) ]};
                 Times :=
                   {[ kubectl_update := 3%Z; kubectl_apply := 7%Z ]} |})))
    by run.
  exact (Apply_ledger_frame fm tracked [Byte.x01] "kubectl" false 7%Z _ _
           HA).
Defined.

(** X20 on the same apply. *)
Lemma Apply_identity_clean_witness :
  ∃ ident,
    buildManagerInfo fm "kubectl" ManagedFieldsOperationApply = Ok ident ∧
    (({[ kubectl_update :=
           Some (NewVersionedSet {[ status_path ]} "v1" false);
         kubectl_apply :=
           Some (NewVersionedSet {[ spec_path ]} "v1" true) ]}
        : ManagedFields) !! ident = None ∨
     ∃ vs,
       ({[ kubectl_update :=
             Some (NewVersionedSet {[ status_path ]} "v1" false);
           kubectl_apply :=
             Some (NewVersionedSet {[ spec_path ]} "v1" true) ]}
          : ManagedFields) !! ident = Some (Some vs) ∧
       Set' vs ≠ ∅ ∧ ∀ p, p ∈ stripSet → p ∉ Set' vs).
Proof.
  assert (HA : Apply_managed fm tracked [Byte.x01] "kubectl" false 7%Z =
            Returns (inr (document_object doc_v1,
              {| Fields :=
                   {[ kubectl_update :=
                        Some (NewVersionedSet {[ status_path ]} "v1" false);
                      kubectl_apply :=
                        Some (NewVersionedSet {[ spec_path ]} "v1" true) ]};
                 Times :=
                   {[ kubectl_update := 3%Z; kubectl_apply := 7%Z ]} |})))
    by run.
  exact (Apply_identity_clean fm tracked [Byte.x01] "kubectl" false 7%Z _ _
           HA).
Defined.

(** X21 on models that do not parse. *)
Lemma construction_failure_witness :
  NewFieldManager (K := construction) (Some false) convertor defaulter
    "v1" "__internal" = Err (other_error "no models") ∧
  NewCRDFieldManager (K := construction) (Some false) convertor defaulter
    "v1" "__internal" true = Err (other_error "no models").
Proof.
  split.
  - apply (proj1 (construction_failure (K := construction) (Some false)
                    convertor defaulter "v1" "__internal" false
                    (other_error "no models"))).
    reflexivity.
  - apply (proj2 (construction_failure (K := construction) (Some false)
                    convertor defaulter "v1" "__internal" true
                    (other_error "no models"))).
    exists false. split; reflexivity.
Defined.

(** X22 on the CRD constructor without models. *)
Lemma construction_fields_witness :
  ∃ f, NewCRDFieldManager (K := construction) None convertor defaulter
         "v1" "__internal" true = Ok f ∧
       groupVersion f = "v1" ∧ hubVersion f = "__internal" ∧
       typeConverter f
         = internal_DeducedTypeConverter (Construction := construction).
Proof.
  eexists. split; [reflexivity |].
  destruct (construction_fields (K := construction) None convertor defaulter
              "v1" "__internal" true
              {| typeConverter := converter; objectConverter := convertor;
                 objectDefaulter := defaulter; groupVersion := "v1";
                 hubVersion := "__internal";
                 updater := engine false false |})
    as (Hgv & Hhub & _ & _ & _ & Hcrd); [by right |].
  split; [exact Hgv |]. split; [exact Hhub |].
  by apply Hcrd.
Defined.
